(** * CUDAStream: the dual-resident host/device buffer of cudatypes.h

    A shallow embedding of [template <typename T> struct CUDAStream] from
    [platforms/cuda/src/kernels/cudatypes.h] and the properties of its
    constructor, [Allocate], [Upload], [Download] and [Collapse].

    Conventions of the embedding:
    - [unsigned int] values are integers in [0, 2^32); every arithmetic
      operation the source performs on them is written with its wrap-around
      ([wadd], [wmul]).
    - A heap array ([new T[n]], [cudaMalloc]) is a [list (option X)]; [None]
      is a cell that has never been written (indeterminate content).
    - A pointer member is [None] while it owns no allocation and [Some a]
      while it owns the array [a].  The entries of the two view tables are
      element offsets from the base of the array they point into
      ([_pSysData + k] is the offset [k]).
    - Leaving the process through [exit] and running into undefined
      behaviour (out-of-bounds access, null dereference, division by zero)
      are separate outcomes of a method call.
    - [new] is taken to succeed ([std::bad_alloc] is not modelled); the
      answers of the CUDA runtime are a parameter of every call. *)

From Stdlib Require Import Ascii Floats Uint63.
From stdpp Require Import base numbers list list_numbers strings.

Local Open Scope Z_scope.

(** ** Machine arithmetic on [unsigned int] *)

Definition UINT_MODULUS : Z := 2 ^ 32.

Definition uint (z : Z) : Prop := 0 ≤ z < UINT_MODULUS.

Definition wadd (a b : Z) : Z := (a + b) mod UINT_MODULUS.
Definition wmul (a b : Z) : Z := (a * b) mod UINT_MODULUS.

(** The range of [int]. *)
Definition INT_MIN : Z := - 2 ^ 31.
Definition INT_MAX : Z := 2 ^ 31 - 1.

(** ** The CUDA runtime, as far as the buffer uses it

    The runtime is outside the repository: its answers are a parameter. *)

Definition cudaError_t := Z.
Definition cudaSuccess : cudaError_t := 0.

Inductive cudaMemcpyKind := cudaMemcpyHostToDevice | cudaMemcpyDeviceToHost.

Record Device := {
  cudaMalloc : Z → cudaError_t;                   (* by the size in bytes *)
  cudaMemcpy : Z → cudaMemcpyKind → cudaError_t;  (* by size and direction *)
  cudaFree : cudaError_t;
  cudaGetErrorString : cudaError_t → string
}.

(** [sizeof(T)] of the element type the template is instantiated at. *)
Class Sized (T : Type) := sizeof : Z.

Definition newline : string := String "010"%char EmptyString.

(** The characters a [%s] conversion reads from the buffer of a string: all
    those before its first NUL byte.  A [std::string] can hold NUL bytes;
    the [const char*] that [c_str()] hands to [printf] ends at the first. *)
Fixpoint c_str (s : string) : string :=
  match s with
  | EmptyString => EmptyString
  | String c s' => if Ascii.eqb c "000"%char then EmptyString else String c (c_str s')
  end.

(** The text [printf("%s %s\n", s, e)] writes. *)
Definition printf_s_s (s e : string) : string :=
  c_str s +:+ " " +:+ c_str e +:+ newline.

Section CUDAStream.
Context {T : Type} `{!Sized T}.

Record CUDAStream := {
  _length : Z;
  _subStreams : Z;
  _stride : Z;
  _pSysStream : option (list (option Z));
  _pDevStream : option (list (option Z));
  _pSysData : option (list (option T));
  _pDevData : option (list (option T));
  _name : string
}.

(** How a call on a buffer can end: it returns, the process is left through
    [exit(status)] after [out] was printed, with the object as it was at
    that moment, or the behaviour is undefined. *)
Inductive outcome (A : Type) : Type :=
| Returned (a : A)
| Exited (status : Z) (out : string) (self : CUDAStream)
| Undefined.
Global Arguments Returned {A} a.
Global Arguments Exited {A} status out self.
Global Arguments Undefined {A}.

Definition bind {A B} (k : A → outcome B) (m : outcome A) : outcome B :=
  match m with
  | Returned a => k a
  | Exited st out self => Exited st out self
  | Undefined => Undefined
  end.

Global Instance outcome_ret : MRet outcome := @Returned.
Global Instance outcome_bind : MBind outcome := @bind.

(** [for (unsigned int i = i0; ...; i++) body], run for [n] iterations. *)
Fixpoint for_loop {St} (n : nat) (i : Z) (body : Z → St → outcome St) (st : St)
  : outcome St :=
  match n with
  | O => Returned st
  | S n' => st' ← body i st ; for_loop n' (i + 1) body st'
  end.

(** [for (unsigned int i = 0; i < bound; i++) body] *)
Definition for_upto {St} (bound : Z) (body : Z → St → outcome St) (st : St)
  : outcome St :=
  for_loop (Z.to_nat bound) 0 body st.

(** *** Arrays *)

(** [new X[n]]: [n] cells of indeterminate content. *)
Definition new_array {X} (n : Z) : list (option X) := replicate (Z.to_nat n) None.

(** [a[i]] as an rvalue; [None] outside the array. *)
Definition lookupZ {X} (a : list X) (i : Z) : option X :=
  if bool_decide (0 ≤ i) then a !! Z.to_nat i else None.

(** [a[i] = x]; [None] outside the array. *)
Definition insertZ {X} (a : list X) (i : Z) (x : X) : option (list X) :=
  if bool_decide (0 ≤ i < Z.of_nat (length a))
  then Some (<[Z.to_nat i := x]> a) else None.

(** An access that has no defined result is undefined behaviour. *)
Definition defined {X} (o : option X) : outcome X :=
  match o with Some x => Returned x | None => Undefined end.

(** [RTERROR(status, s)]: on a status other than [cudaSuccess], print and
    [exit(-1)]; otherwise go on. *)
Definition RTERROR {A} (d : Device) (status : cudaError_t) (s : string)
    (self : CUDAStream) (k : outcome A) : outcome A :=
  if bool_decide (status ≠ cudaSuccess)
  then Exited (-1) (printf_s_s s (cudaGetErrorString d status)) self
  else k.

(** *** Assignments to the members *)

Definition with_pSysStream (s : CUDAStream) (p : option (list (option Z))) :=
  {| _length := _length s; _subStreams := _subStreams s; _stride := _stride s;
     _pSysStream := p; _pDevStream := _pDevStream s;
     _pSysData := _pSysData s; _pDevData := _pDevData s; _name := _name s |}.

Definition with_pDevStream (s : CUDAStream) (p : option (list (option Z))) :=
  {| _length := _length s; _subStreams := _subStreams s; _stride := _stride s;
     _pSysStream := _pSysStream s; _pDevStream := p;
     _pSysData := _pSysData s; _pDevData := _pDevData s; _name := _name s |}.

Definition with_pSysData (s : CUDAStream) (p : option (list (option T))) :=
  {| _length := _length s; _subStreams := _subStreams s; _stride := _stride s;
     _pSysStream := _pSysStream s; _pDevStream := _pDevStream s;
     _pSysData := p; _pDevData := _pDevData s; _name := _name s |}.

Definition with_pDevData (s : CUDAStream) (p : option (list (option T))) :=
  {| _length := _length s; _subStreams := _subStreams s; _stride := _stride s;
     _pSysStream := _pSysStream s; _pDevStream := _pDevStream s;
     _pSysData := _pSysData s; _pDevData := p; _name := _name s |}.

Definition with_shape (s : CUDAStream) (stride length subStreams : Z) :=
  {| _length := length; _subStreams := subStreams; _stride := stride;
     _pSysStream := _pSysStream s; _pDevStream := _pDevStream s;
     _pSysData := _pSysData s; _pDevData := _pDevData s; _name := _name s |}.

(** [_pSysStream[i] = _pSysData + off] *)
Definition set_sys_view (i off : Z) (s : CUDAStream) : outcome CUDAStream :=
  tbl ← defined (_pSysStream s);
  tbl' ← defined (insertZ tbl i (Some off));
  Returned (with_pSysStream s (Some tbl')).

(** [_pDevStream[i] = _pDevData + off] *)
Definition set_dev_view (i off : Z) (s : CUDAStream) : outcome CUDAStream :=
  tbl ← defined (_pDevStream s);
  tbl' ← defined (insertZ tbl i (Some off));
  Returned (with_pDevStream s (Some tbl')).

(** The pointer [_pSysStream[j]], as an offset from [_pSysData]; an entry
    that was never assigned is an indeterminate pointer. *)
Definition sys_view (s : CUDAStream) (j : Z) : option Z :=
  tbl ← _pSysStream s; p ← lookupZ tbl j; p.

Definition dev_view (s : CUDAStream) (j : Z) : option Z :=
  tbl ← _pDevStream s; p ← lookupZ tbl j; p.

(** [_pSysStream[j][i]] as an rvalue. *)
Definition SysStream_get (s : CUDAStream) (j i : Z) : option (option T) :=
  p ← sys_view s j; host ← _pSysData s; lookupZ host (p + i).

(** [_pSysStream[j][i] = v] *)
Definition SysStream_set (j i : Z) (v : option T) (s : CUDAStream)
  : outcome CUDAStream :=
  p ← defined (sys_view s j);
  host ← defined (_pSysData s);
  host' ← defined (insertZ host (p + i) v);
  Returned (with_pSysData s (Some host')).

(** The cell [_pSysData[x]] of the host storage, as an rvalue. *)
Definition host_get (s : CUDAStream) (x : Z) : option (option T) :=
  host ← _pSysData s; lookupZ host x.

(** [T& operator[](int index)], read and written.  The parameter is an
    [int]: no call passes a value outside [INT_MIN, INT_MAX], so the
    operator reaches no cell at such an index. *)
Definition index_get (s : CUDAStream) (index : Z) : option (option T) :=
  if bool_decide (INT_MIN ≤ index ≤ INT_MAX) then host_get s index else None.

Definition index_set (index : Z) (v : option T) (s : CUDAStream)
  : outcome CUDAStream :=
  if bool_decide (INT_MIN ≤ index ≤ INT_MAX) then
    host ← defined (_pSysData s);
    host' ← defined (insertZ host index v);
    Returned (with_pSysData s (Some host'))
  else Undefined.

(** *** Constructor, Allocate, Deallocate *)

(** The body of the loop that points view [i] of both tables at
    [base + i * stride]. *)
Definition point_views (stride : Z) (i : Z) (s : CUDAStream) : outcome CUDAStream :=
  s ← set_sys_view i (wmul i stride) s;
  set_dev_view i (wmul i stride) s.

(** [Allocate]: the two view tables and the host storage with [new], the
    device storage with [cudaMalloc], checked by [RTERROR], then the views. *)
Definition Allocate (d : Device) (s : CUDAStream) : outcome CUDAStream :=
  let s := with_pSysStream s (Some (new_array (_subStreams s))) in
  let s := with_pDevStream s (Some (new_array (_subStreams s))) in
  let s := with_pSysData s (Some (new_array (wmul (_subStreams s) (_stride s)))) in
  let status := cudaMalloc d (wmul (_stride s) (_subStreams s) * sizeof) in
  RTERROR d status (_name s +:+ ": cudaMalloc in CUDAStream::Allocate failed") s (
    let s := with_pDevData s (Some (new_array (wmul (_stride s) (_subStreams s)))) in
    for_upto (_subStreams s) (point_views (_stride s)) s).

(** [CUDAStream(unsigned int length, unsigned int subStreams, std::string name)] *)
Definition construct (d : Device) (length subStreams : Z) (name : string)
  : outcome CUDAStream :=
  Allocate d
    {| _length := length; _subStreams := subStreams;
       _stride := Z.land (wadd length 0xf) 0xfffffff0;
       _pSysStream := None; _pDevStream := None;
       _pSysData := None; _pDevData := None; _name := name |}.

(** [Deallocate]: [delete[]] and [NULL] for the three host arrays, then
    [cudaFree], checked by [RTERROR]. *)
Definition Deallocate (d : Device) (s : CUDAStream) : outcome CUDAStream :=
  let s := with_pSysStream s None in
  let s := with_pDevStream s None in
  let s := with_pSysData s None in
  let status := cudaFree d in
  RTERROR d status (_name s +:+ ": cudaFree in CUDAStream::Deallocate failed") s (
    Returned (with_pDevData s None)).

(** *** Upload and Download *)

(** [cudaMemcpy(dst, src, n * sizeof(T), kind)] when it reports success:
    the first [n] elements of [dst] are those of [src].  Copying more than
    either array holds has no defined result. *)
Definition memcpy (dst src : list (option T)) (n : Z) : option (list (option T)) :=
  if bool_decide (n ≤ Z.of_nat (length dst) ∧ n ≤ Z.of_nat (length src))
  then Some (take (Z.to_nat n) src ++ drop (Z.to_nat n) dst) else None.

(** [Upload]: one [cudaMemcpy] of [_stride * _subStreams * sizeof(T)]
    bytes from host to device, checked by [RTERROR]. *)
Definition Upload (d : Device) (s : CUDAStream) : outcome CUDAStream :=
  let n := wmul (_stride s) (_subStreams s) in
  let status := cudaMemcpy d (n * sizeof) cudaMemcpyHostToDevice in
  RTERROR d status (_name s +:+ ": cudaMemcpy in CUDAStream::Upload failed") s (
    dev ← defined (_pDevData s);
    host ← defined (_pSysData s);
    dev' ← defined (memcpy dev host n);
    Returned (with_pDevData s (Some dev'))).

(** [Download]: the same copy from device to host. *)
Definition Download (d : Device) (s : CUDAStream) : outcome CUDAStream :=
  let n := wmul (_stride s) (_subStreams s) in
  let status := cudaMemcpy d (n * sizeof) cudaMemcpyDeviceToHost in
  RTERROR d status (_name s +:+ ": cudaMemcpy in CUDAStream::Download failed") s (
    host ← defined (_pSysData s);
    dev ← defined (_pDevData s);
    host' ← defined (memcpy host dev n);
    Returned (with_pSysData s (Some host'))).

(** *** Collapse *)

(** [pTemp[stream * newstride + pos]]: the index, in [unsigned int]. *)
Definition temp_index (newstride stream pos : Z) : Z :=
  wadd (wmul stream newstride) pos.

(** Body of the first loop nest, "Copy data into new format". *)
Definition gather (s : CUDAStream) (newstreams newstride : Z) (i j : Z)
    (st : list (option T) * Z * Z) : outcome (list (option T) * Z * Z) :=
  let '(pTemp, stream, pos) := st in
  v ← defined (SysStream_get s j i);
  pTemp ← defined (insertZ pTemp (temp_index newstride stream pos) v);
  let stream := wadd stream 1 in
  if bool_decide (stream = newstreams)
  then Returned (pTemp, 0, wadd pos 1)
  else Returned (pTemp, stream, pos).

(** Body of the last loop nest, "Copy data back intro original stream". *)
Definition scatter (pTemp : list (option T)) (newstride : Z) (i j : Z)
    (s : CUDAStream) : outcome CUDAStream :=
  v ← defined (lookupZ pTemp (temp_index newstride j i));
  SysStream_set j i v s.

(** [Collapse(newstreams, interleave)]: gather into [pTemp] in the new
    format, remap the views [0, newstreams), copy back, then update
    [_stride], [_length] and [_subStreams].  [interleave] is not used. *)
Definition Collapse (newstreams interleave : Z) (s : CUDAStream)
  : outcome CUDAStream :=
  let pTemp : list (option T) := new_array (wmul (_subStreams s) (_stride s)) in
  if bool_decide (newstreams = 0) then Undefined else
  let newstride := wmul (_stride s) (_subStreams s) / newstreams in
  let newlength := wmul (_length s) (_subStreams s) / newstreams in
  '(pTemp, stream, pos) ←
    for_upto (_length s) (λ i,
      for_upto (_subStreams s) (λ j, gather s newstreams newstride i j))
      (pTemp, 0, 0);
  s ← for_upto newstreams (point_views newstride) s;
  s ← for_upto newlength (λ i,
         for_upto newstreams (λ j, scatter pTemp newstride i j)) s;
  Returned (with_shape s newstride newlength newstreams).

(** *** What a caller observes *)

(** The elements at positions [0, _length) of sub-stream [j], in order. *)
Definition substream (s : CUDAStream) (j : Z) : list (option (option T)) :=
  SysStream_get s j <$> seqZ 0 (_length s).

(** All elements of all sub-streams, sub-stream after sub-stream. *)
Definition contents (s : CUDAStream) : list (option (option T)) :=
  mjoin (substream s <$> seqZ 0 (_subStreams s)).

End CUDAStream.

Global Arguments CUDAStream T : clear implicits.
Global Arguments outcome T A : clear implicits.

(** ** The shape invariant of a buffer *)

Section Shape.
Context {T : Type}.

(** Number of entries of the two view tables.  [Allocate] fixes it; no
    other method reallocates the tables. *)
Definition capacity (s : CUDAStream T) : Z :=
  match _pSysStream s, _pDevStream s with
  | Some sys, Some dev => Z.of_nat (length sys) `min` Z.of_nat (length dev)
  | _, _ => 0
  end.

(** View [i] of either table points at [base + i * _stride], for every
    current sub-stream. *)
Definition views_ok (s : CUDAStream T) : Prop :=
  ∀ i, 0 ≤ i < _subStreams s →
    sys_view s i = Some (i * _stride s) ∧ dev_view s i = Some (i * _stride s).

(** A well-formed buffer: the sub-streams lie one after the other inside
    both storages, each long enough for [_length] elements, and the extent
    [_stride * _subStreams] is an [unsigned int]. *)
Record wf (s : CUDAStream T) : Prop := {
  wf_length : 0 ≤ _length s ≤ _stride s;
  wf_subStreams : 0 ≤ _subStreams s ≤ capacity s;
  wf_count : _subStreams s < UINT_MODULUS;
  wf_extent : _stride s * _subStreams s < UINT_MODULUS;
  wf_host : ∃ host, _pSysData s = Some host ∧
                    _stride s * _subStreams s ≤ Z.of_nat (length host);
  wf_device : ∃ dev, _pDevData s = Some dev ∧
                     _stride s * _subStreams s ≤ Z.of_nat (length dev);
  wf_views : views_ok s
}.

(** [views_ok] and [wf] as checks that can be run on a given buffer. *)
Definition views_okb (s : CUDAStream T) : bool :=
  forallb (λ i, bool_decide (sys_view s i = Some (i * _stride s)) &&
                bool_decide (dev_view s i = Some (i * _stride s)))
    (seqZ 0 (_subStreams s)).

Definition holdsb (stride subStreams : Z) (p : option (list (option T))) : bool :=
  match p with
  | Some a => bool_decide (stride * subStreams ≤ Z.of_nat (length a))
  | None => false
  end.

Definition wfb (s : CUDAStream T) : bool :=
  bool_decide (0 ≤ _length s ≤ _stride s) &&
  bool_decide (0 ≤ _subStreams s ≤ capacity s) &&
  bool_decide (_subStreams s < UINT_MODULUS) &&
  bool_decide (_stride s * _subStreams s < UINT_MODULUS) &&
  holdsb (_stride s) (_subStreams s) (_pSysData s) &&
  holdsb (_stride s) (_subStreams s) (_pDevData s) &&
  views_okb s.

(** Element [k] of the buffer read in row-major order: position [i] of
    sub-stream [j] comes at [k = i * _subStreams + j]. *)
Definition element (s : CUDAStream T) (k : Z) : option (option T) :=
  SysStream_get s (k mod _subStreams s) (k `div` _subStreams s).

Definition row_major (s : CUDAStream T) : list (option (option T)) :=
  element s <$> seqZ 0 (_length s * _subStreams s).

(** Where [Collapse] puts element [k] of the row-major sequence: sub-stream
    [k mod newstreams], position [k / newstreams] of the new layout. *)
Definition slot (newstreams newstride k : Z) : Z :=
  (k mod newstreams) * newstride + k `div` newstreams.

(** Views [0, n) of both tables point at [base + j * stride], the product
    taken in [unsigned int]. *)
Definition views_upto (stride n : Z) (s : CUDAStream T) : Prop :=
  ∀ j, 0 ≤ j < n →
    sys_view s j = Some (wmul j stride) ∧ dev_view s j = Some (wmul j stride).

(** Two states of a buffer with the same shape and the same view tables. *)
Definition same_layout (s s' : CUDAStream T) : Prop :=
  _length s' = _length s ∧ _subStreams s' = _subStreams s ∧
  _stride s' = _stride s ∧
  _pSysStream s' = _pSysStream s ∧ _pDevStream s' = _pDevStream s.

(** [st] is [s0] with the views [0, n) of both tables pointed at
    [base + j * stride] and nothing else touched. *)
Record remapped (stride n : Z) (s0 st : CUDAStream T) : Prop := {
  rm_length : _length st = _length s0;
  rm_subStreams : _subStreams st = _subStreams s0;
  rm_stride : _stride st = _stride s0;
  rm_host : _pSysData st = _pSysData s0;
  rm_device : _pDevData st = _pDevData s0;
  rm_name : _name st = _name s0;
  rm_capacity : capacity st = capacity s0;
  rm_views : ∀ j, 0 ≤ j < n →
    sys_view st j = Some (wmul j stride) ∧ dev_view st j = Some (wmul j stride)
}.

(** State of the first loop nest of [Collapse] after [k] elements were
    taken from [s]: the counters, the size of the scratch array, and, as
    long as no sub-stream of the new layout overflows into the next one,
    its content. *)
Definition gathered (s : CUDAStream T) (m ns k : Z)
    (st : list (option T) * Z * Z) : Prop :=
  let '(pTemp, stream, pos) := st in
  stream = k `mod` m ∧ pos = k `div` m ∧
  Z.of_nat (length pTemp) = _stride s * _subStreams s ∧
  (_length s * _subStreams s ≤ ns * m →
   ∀ k', 0 ≤ k' < k → lookupZ pTemp (slot m ns k') = element s k').

(** State of the last loop nest of [Collapse] after [c] elements were
    written back from [pTemp] into [st], which started as [s1]. *)
Record scattered (pTemp : list (option T)) (m ns c : Z)
    (s1 st : CUDAStream T) : Prop := {
  sc_length : _length st = _length s1;
  sc_subStreams : _subStreams st = _subStreams s1;
  sc_stride : _stride st = _stride s1;
  sc_sys : _pSysStream st = _pSysStream s1;
  sc_dev : _pDevStream st = _pDevStream s1;
  sc_device : _pDevData st = _pDevData s1;
  sc_name : _name st = _name s1;
  sc_host : ∃ host1 host, _pSysData s1 = Some host1 ∧ _pSysData st = Some host ∧
      length host = length host1 ∧
      ∀ c', 0 ≤ c' < c → lookupZ host (slot m ns c') = lookupZ pTemp (slot m ns c')
}.

End Shape.

(** ** Calls on a buffer and the states they lead to *)

Section Calls.
Context {T : Type} `{!Sized T}.

Inductive call :=
| CallUpload
| CallDownload
| CallCollapse (newstreams interleave : Z).

Definition perform (d : Device) (c : call) (s : CUDAStream T)
  : outcome T (CUDAStream T) :=
  match c with
  | CallUpload => Upload d s
  | CallDownload => Download d s
  | CallCollapse newstreams interleave => Collapse newstreams interleave s
  end.

(** [_pDevData[x] = v], as a kernel running on the device does it. *)
Definition device_set (x : Z) (v : option T) (s : CUDAStream T)
  : outcome T (CUDAStream T) :=
  dev ← defined (_pDevData s);
  dev' ← defined (insertZ dev x v);
  Returned (with_pDevData s (Some dev')).

(** The buffers a program can hold: what a constructor call that returned
    has built, and what a further call that returned has made of it.
    Between the calls the caller writes host elements, through a view
    ([_pSysStream[j][i] = v]) or through [operator[]], and kernels write
    cells of the device storage. *)
Inductive completed (d : Device) : CUDAStream T → Prop :=
| completed_construct length subStreams name s :
    construct d length subStreams name = Returned s → completed d s
| completed_call c s s' :
    completed d s → perform d c s = Returned s' → completed d s'
| completed_view_write j i v s s' :
    completed d s → SysStream_set j i v s = Returned s' → completed d s'
| completed_index_write index v s s' :
    completed d s → index_set index v s = Returned s' → completed d s'
| completed_kernel_write x v s s' :
    completed d s → device_set x v s = Returned s' → completed d s'.

(** [for (i = 0; i < n; i++) _pSysStream[j][i] = of_Z (base + i)]: how a
    caller populates a sub-stream. *)
Definition populate (of_Z : Z → T) (j base n : Z) (s : CUDAStream T)
  : outcome T (CUDAStream T) :=
  for_upto n (λ i, SysStream_set j i (Some (of_Z (base + i)))) s.

(** The result of a call that is known to return. *)
Definition returned {A} (default : A) (o : outcome T A) : A :=
  match o with Returned a => a | _ => default end.

Definition unallocated : CUDAStream T :=
  {| _length := 0; _subStreams := 0; _stride := 0;
     _pSysStream := None; _pDevStream := None;
     _pSysData := None; _pDevData := None; _name := "" |}.

End Calls.

(** The least multiple of [b] that is not below [a] is [ceil_div a b * b]. *)
Definition ceil_div (a b : Z) : Z := - ((- a) `div` b).

(** ** Concrete runtimes and buffers *)

(** A runtime on which every call succeeds. *)
Definition runtime_ok : Device :=
  {| cudaMalloc := λ _, cudaSuccess;
     cudaMemcpy := λ _ _, cudaSuccess;
     cudaFree := cudaSuccess;
     cudaGetErrorString := λ _, "no error" |}.

(** A runtime whose allocator is out of memory
    ([cudaErrorMemoryAllocation] is 2). *)
Definition runtime_oom : Device :=
  {| cudaMalloc := λ _, 2;
     cudaMemcpy := λ _ _, cudaSuccess;
     cudaFree := cudaSuccess;
     cudaGetErrorString := λ e, if bool_decide (e = 2) then "out of memory" else "no error" |}.

#[global] Instance float_sized : Sized float := 4.

Definition float_of_Z (z : Z) : float := PrimFloat.of_uint63 (Uint63.of_Z z).

(** [CUDAStream<float> s(length, subStreams, name)] on [runtime_ok]. *)
Definition fresh (length subStreams : Z) : CUDAStream float :=
  returned unallocated (construct runtime_ok length subStreams "s").

(** The buffer of the example: 20 elements in each of 2 sub-streams,
    [0..19] in the first and [100..119] in the second. *)
Definition example_20x2 : CUDAStream float :=
  returned unallocated
    (s ← construct runtime_ok 20 2 "example";
     s ← populate float_of_Z 0 0 20 s;
     populate float_of_Z 1 100 20 s).

(** ** The other constructors *)

(** Conversion of an [int] to [unsigned int]. *)
Definition to_unsigned (z : Z) : Z := z `mod` UINT_MODULUS.

(** [a + b] on two [int]: a sum outside [int] has no defined result. *)
Definition int_add (a b : Z) : option Z :=
  if bool_decide (INT_MIN ≤ a + b ≤ INT_MAX) then Some (a + b) else None.

Section Overloads.
Context {T : Type} `{!Sized T}.

(** [CUDAStream(int length, unsigned int subStreams, std::string name)]:
    [length + 0xf] is an [int] sum, converted for the [&] with the
    [unsigned int] constant. *)
Definition construct_int_uint (d : Device) (length subStreams : Z) (name : string)
  : outcome T (CUDAStream T) :=
  sum ← defined (int_add length 0xf);
  Allocate d
    {| _length := to_unsigned length; _subStreams := subStreams;
       _stride := Z.land (to_unsigned sum) 0xfffffff0;
       _pSysStream := None; _pDevStream := None;
       _pSysData := None; _pDevData := None; _name := name |}.

(** [CUDAStream(unsigned int length, int subStreams, std::string name)] *)
Definition construct_uint_int (d : Device) (length subStreams : Z) (name : string)
  : outcome T (CUDAStream T) :=
  Allocate d
    {| _length := length; _subStreams := to_unsigned subStreams;
       _stride := Z.land (wadd length 0xf) 0xfffffff0;
       _pSysStream := None; _pDevStream := None;
       _pSysData := None; _pDevData := None; _name := name |}.

(** [CUDAStream(int length, int subStreams, std::string name)] *)
Definition construct_int_int (d : Device) (length subStreams : Z) (name : string)
  : outcome T (CUDAStream T) :=
  sum ← defined (int_add length 0xf);
  Allocate d
    {| _length := to_unsigned length; _subStreams := to_unsigned subStreams;
       _stride := Z.land (to_unsigned sum) 0xfffffff0;
       _pSysStream := None; _pDevStream := None;
       _pSysData := None; _pDevData := None; _name := name |}.

(** What a kernel that was handed [_pDevStream[j]] reads at position [i]. *)
Definition DevStream_get (s : CUDAStream T) (j i : Z) : option (option T) :=
  p ← dev_view s j; dev ← _pDevData s; lookupZ dev (p + i).

(** Cell [x] of the device storage. *)
Definition device_get (s : CUDAStream T) (x : Z) : option (option T) :=
  dev ← _pDevData s; lookupZ dev x.

(** State of the first loop nest of [Collapse] after [k] elements, whatever
    the shape: an element is in its slot of the scratch array unless a
    later one was written to the same slot. *)
Definition gathered_last (s : CUDAStream T) (m ns k : Z)
    (st : list (option T) * Z * Z) : Prop :=
  let '(pTemp, stream, pos) := st in
  stream = k `mod` m ∧ pos = k `div` m ∧
  Z.of_nat (length pTemp) = _stride s * _subStreams s ∧
  ∀ k', 0 ≤ k' < k →
    (∀ k'', k' < k'' < k → slot m ns k'' ≠ slot m ns k') →
    lookupZ pTemp (slot m ns k') = element s k'.

End Overloads.

(** * Properties *)

(** ** Machine arithmetic *)

Lemma wadd_small a b : 0 ≤ a + b < UINT_MODULUS → wadd a b = a + b.
Proof. intros. unfold wadd. by rewrite Z.mod_small. Qed.

Lemma wmul_small a b : 0 ≤ a * b < UINT_MODULUS → wmul a b = a * b.
Proof. intros. unfold wmul. by rewrite Z.mod_small. Qed.

Lemma wmul_uint a b : uint (wmul a b).
Proof. unfold uint, wmul, UINT_MODULUS. apply Z.mod_pos_bound. lia. Qed.

Lemma wmul_comm a b : wmul a b = wmul b a.
Proof. unfold wmul. by rewrite Z.mul_comm. Qed.

(** Rounding up to a multiple of 16 by [(x + 0xf) & 0xfffffff0]. *)
Lemma land_fffffff0 x : 0 ≤ x < UINT_MODULUS → Z.land x 0xfffffff0 = 16 * (x `div` 16).
Proof.
  intros Hx. unfold UINT_MODULUS in Hx.
  change 0xfffffff0 with (Z.ones 32 - Z.ones 4).
  assert (Hd : x = 16 * (x `div` 16) + x `mod` 16) by (apply Z.div_mod; lia).
  assert (Hm : 0 ≤ x `mod` 16 < 16) by (apply Z.mod_pos_bound; lia).
  apply Z.bits_inj'. intros n Hn.
  rewrite Z.land_spec.
  change 16 with (2 ^ 4) at 1. rewrite Z.mul_comm.
  destruct (decide (n < 4)) as [Hlt|Hge].
  - rewrite Z.mul_pow2_bits_low by lia.
    replace (Z.testbit (Z.ones 32 - Z.ones 4) n) with false; [by rewrite andb_false_r|].
    symmetry. change (Z.ones 32 - Z.ones 4) with (Z.ones 28 * 2 ^ 4).
    by rewrite Z.mul_pow2_bits_low by lia.
  - rewrite Z.mul_pow2_bits by lia.
    change 16 with (2 ^ 4). rewrite Z.div_pow2_bits by lia.
    replace (n - 4 + 4) with n by lia.
    change (Z.ones 32 - Z.ones 4) with (Z.ones 28 * 2 ^ 4).
    rewrite Z.mul_pow2_bits by lia.
    destruct (decide (n < 32)) as [Hlt|Hge'].
    + rewrite Z.ones_spec_low by lia. by rewrite andb_true_r.
    + rewrite Z.ones_spec_high by lia. rewrite andb_false_r.
      symmetry. destruct (decide (x = 0)) as [->|Hx0]; [apply Z.bits_0|].
      apply Z.bits_above_log2; [lia|].
      apply Z.log2_lt_pow2; [lia|].
      assert (2 ^ 32 ≤ 2 ^ n) by (apply Z.pow_le_mono_r; lia). lia.
Qed.

Lemma stride_round_up len :
  0 ≤ len → len + 0xf < UINT_MODULUS →
  Z.land (wadd len 0xf) 0xfffffff0 = 16 * ((len + 15) `div` 16).
Proof.
  intros H0 H1. rewrite wadd_small by lia. apply land_fffffff0. lia.
Qed.

(** ** Loops *)

Section Loops.
Context {T St : Type}.
Implicit Types (body : Z → St → outcome T St) (P : Z → St → Prop).

(** A loop whose body keeps an invariant, and returns wherever the
    invariant holds, returns with the invariant. *)
Lemma for_loop_inv P body n i0 st :
  P i0 st →
  (∀ i st, i0 ≤ i < i0 + Z.of_nat n → P i st →
     ∃ st', body i st = Returned st' ∧ P (i + 1) st') →
  ∃ st', for_loop n i0 body st = Returned st' ∧ P (i0 + Z.of_nat n) st'.
Proof.
  revert i0 st. induction n as [|n IH]; intros i0 st H0 Hstep.
  - exists st. split; [done|]. by replace (i0 + Z.of_nat 0) with i0 by lia.
  - destruct (Hstep i0 st) as (st1 & Hb & H1); [lia|done|].
    destruct (IH (i0 + 1) st1) as (st' & Hl & H'); [done| |].
    + intros i st2 Hi. apply Hstep. lia.
    + exists st'. split.
      * cbn [for_loop]. rewrite Hb. exact Hl.
      * by replace (i0 + Z.of_nat (S n)) with (i0 + 1 + Z.of_nat n) by lia.
Qed.

Lemma for_upto_inv P body bound st :
  0 ≤ bound →
  P 0 st →
  (∀ i st, 0 ≤ i < bound → P i st →
     ∃ st', body i st = Returned st' ∧ P (i + 1) st') →
  ∃ st', for_upto bound body st = Returned st' ∧ P bound st'.
Proof.
  intros Hb H0 Hstep. unfold for_upto.
  destruct (for_loop_inv P body (Z.to_nat bound) 0 st) as (st' & Hl & H');
    [done| |].
  - intros i st1 Hi. apply Hstep. lia.
  - exists st'. split; [done|]. by replace bound with (0 + Z.of_nat (Z.to_nat bound)) by lia.
Qed.

End Loops.

(** ** Arrays *)

Section Arrays.
Context {X : Type}.
Implicit Types (a : list X).

Lemma lookupZ_is_Some a i : 0 ≤ i < Z.of_nat (length a) → is_Some (lookupZ a i).
Proof.
  intros Hi. unfold lookupZ. rewrite bool_decide_true by lia.
  apply lookup_lt_is_Some. lia.
Qed.

Lemma insertZ_Some a i x :
  0 ≤ i < Z.of_nat (length a) → insertZ a i x = Some (<[Z.to_nat i := x]> a).
Proof. intros Hi. unfold insertZ. by rewrite bool_decide_true. Qed.

Lemma insertZ_inv a i x a' :
  insertZ a i x = Some a' →
  0 ≤ i < Z.of_nat (length a) ∧ a' = <[Z.to_nat i := x]> a.
Proof. unfold insertZ. case_bool_decide; [|done]. by intros [= <-]. Qed.

Lemma lookupZ_insert_eq a i x :
  0 ≤ i < Z.of_nat (length a) → lookupZ (<[Z.to_nat i := x]> a) i = Some x.
Proof.
  intros Hi. unfold lookupZ. rewrite bool_decide_true by lia.
  apply list_lookup_insert_eq. lia.
Qed.

Lemma lookupZ_insert_ne a i j x :
  0 ≤ i → i ≠ j → lookupZ (<[Z.to_nat i := x]> a) j = lookupZ a j.
Proof.
  intros Hi Hne. unfold lookupZ. case_bool_decide; [|done].
  apply list_lookup_insert_ne. lia.
Qed.

Lemma length_new_array n : Z.of_nat (length (new_array (X:=X) n)) = Z.max 0 n.
Proof. unfold new_array. rewrite length_replicate. lia. Qed.

End Arrays.

(** ** The view tables *)

Section Views.
Context {T : Type}.
Implicit Types (s st : CUDAStream T).

Lemma capacity_pos_tables s :
  0 < capacity s →
  ∃ sys dev, _pSysStream s = Some sys ∧ _pDevStream s = Some dev ∧
             capacity s = Z.of_nat (length sys) `min` Z.of_nat (length dev).
Proof.
  unfold capacity. destruct (_pSysStream s) as [sys|], (_pDevStream s) as [dev|];
    try lia. intros _. by exists sys, dev.
Qed.

Lemma point_views_step stride i s0 st :
  0 ≤ i < capacity s0 →
  remapped stride i s0 st →
  ∃ st', point_views stride i st = Returned st' ∧ remapped stride (i + 1) s0 st'.
Proof.
  intros Hi [Hl Hn Hs Hh Hd Hnm Hc Hv].
  destruct (capacity_pos_tables st) as (sys & dev & Hsys & Hdev & Hcap); [lia|].
  unfold point_views, set_sys_view. rewrite Hsys. cbn.
  rewrite insertZ_Some by lia. cbn.
  unfold set_dev_view. cbn. rewrite Hdev. cbn.
  rewrite insertZ_Some by lia. cbn.
  eexists. split; [done|].
  split; cbn; try done.
  - rewrite <- Hc, Hcap. unfold capacity. cbn. by rewrite !length_insert.
  - intros j Hj. unfold sys_view, dev_view. cbn.
    destruct (decide (j = i)) as [->|Hne].
    + rewrite !lookupZ_insert_eq by lia. done.
    + rewrite !lookupZ_insert_ne by lia.
      destruct (Hv j) as [Hvs Hvd]; [lia|].
      unfold sys_view in Hvs. unfold dev_view in Hvd.
      rewrite Hsys in Hvs. rewrite Hdev in Hvd. done.
Qed.

Lemma remapped_refl stride s : remapped stride 0 s s.
Proof. split; try done. intros j Hj. lia. Qed.

(** The loop shared by [Allocate] and [Collapse]: it returns as long as the
    tables have an entry for every view it assigns. *)
Lemma point_views_loop stride n s :
  0 ≤ n ≤ capacity s →
  ∃ st, for_upto n (point_views stride) s = Returned st ∧ remapped stride n s st.
Proof.
  intros Hn.
  apply (for_upto_inv (λ i st, remapped stride i s st)); [lia| |].
  - apply remapped_refl.
  - intros i st Hi Hr. apply point_views_step; [lia|done].
Qed.

End Views.

(** ** Construction *)

Section Construction.
Context {T : Type} `{!Sized T}.
Implicit Types (s : CUDAStream T) (d : Device).

(** What the constructor builds when [cudaMalloc] reports success. *)
Lemma construct_returns d len ss name :
  0 ≤ ss →
  cudaMalloc d (wmul (Z.land (wadd len 0xf) 0xfffffff0) ss * sizeof) = cudaSuccess →
  ∃ s, construct d len ss name = Returned s ∧
    _length s = len ∧ _subStreams s = ss ∧
    _stride s = Z.land (wadd len 0xf) 0xfffffff0 ∧
    _pSysData s = Some (new_array (wmul ss (_stride s))) ∧
    _pDevData s = Some (new_array (wmul (_stride s) ss)) ∧
    capacity s = ss ∧
    (∀ j, 0 ≤ j < ss →
       sys_view s j = Some (wmul j (_stride s)) ∧
       dev_view s j = Some (wmul j (_stride s))).
Proof.
  intros Hss Hok. unfold construct, Allocate, RTERROR. cbn.
  rewrite Hok. rewrite bool_decide_false by (intros ?; done).
  match goal with |- ∃ s, for_upto _ _ ?s0 = _ ∧ _ =>
    destruct (point_views_loop (Z.land (wadd len 0xf) 0xfffffff0) ss s0)
      as (st & Hloop & [Hl Hn Hs Hh Hd Hnm Hc Hv])
  end.
  { unfold capacity. cbn. rewrite !length_new_array. lia. }
  exists st. split; [done|]. cbn in *.
  rewrite Hl, Hn, Hs, Hh, Hd, Hc. repeat split; try done.
  - unfold capacity. cbn. rewrite !length_new_array. lia.
  - by apply Hv.
  - by apply Hv.
Qed.

Lemma construct_Returned_inv d len ss name s :
  construct d len ss name = Returned s →
  cudaMalloc d (wmul (Z.land (wadd len 0xf) 0xfffffff0) ss * sizeof) = cudaSuccess.
Proof.
  unfold construct, Allocate, RTERROR. cbn.
  case_bool_decide as Hs; [done|]. intros _.
  destruct (decide (cudaMalloc d (wmul (Z.land (wadd len 15) 4294967280) ss * sizeof)
                    = cudaSuccess)); [done|]. by destruct Hs.
Qed.

(** Inside the range of [unsigned int] the constructor builds a well-formed
    buffer whose view tables have one entry per sub-stream. *)
Lemma construct_wf d len ss name s :
  0 ≤ len → len + 0xf < UINT_MODULUS → 0 ≤ ss < UINT_MODULUS →
  16 * ((len + 15) `div` 16) * ss < UINT_MODULUS →
  construct d len ss name = Returned s →
  wf s ∧ capacity s = ss.
Proof.
  intros Hlen Hfit Hss Hext Hc.
  pose proof (construct_Returned_inv d len ss name s Hc) as Hok.
  destruct (construct_returns d len ss name (proj1 Hss) Hok)
    as (s' & Hc' & Hl & Hn & Hs & Hh & Hd & Hcap & Hv).
  rewrite Hc in Hc'. injection Hc' as <-.
  rewrite stride_round_up in Hs by done.
  assert (Hr : len ≤ 16 * ((len + 15) `div` 16)).
  { pose proof (Z.div_mod (len + 15) 16). pose proof (Z.mod_pos_bound (len + 15) 16). lia. }
  assert (0 ≤ 16 * ((len + 15) `div` 16) * ss) by nia.
  split; [|done]. split.
  - lia.
  - lia.
  - lia.
  - rewrite Hs, Hn. done.
  - eexists. split; [done|]. rewrite length_new_array, Hs, Hn.
    rewrite wmul_small by lia. lia.
  - eexists. split; [done|]. rewrite length_new_array, Hs, Hn.
    rewrite wmul_small by lia. lia.
  - intros j Hj. rewrite Hn in Hj. destruct (Hv j Hj) as [-> ->].
    rewrite wmul_small; [done|]. rewrite Hs. nia.
Qed.

End Construction.

(** ** Index arithmetic of the reshape *)

Lemma div_mod_eq k m : 0 < m → k = m * (k `div` m) + k `mod` m ∧ 0 ≤ k `mod` m < m.
Proof. intros. split; [apply Z.div_mod; lia|apply Z.mod_pos_bound; lia]. Qed.

Lemma div_mod_of q r m : 0 ≤ r < m → (q * m + r) `div` m = q ∧ (q * m + r) `mod` m = r.
Proof.
  intros Hr. split.
  - symmetry. apply (Z.div_unique _ _ _ r); lia.
  - symmetry. apply (Z.mod_unique _ _ q); lia.
Qed.

(** The counters [stream] and [pos] of the first loop nest after one more
    element. *)
Lemma succ_wrap k m :
  0 < m →
  (k `mod` m + 1 = m → (k + 1) `mod` m = 0 ∧ (k + 1) `div` m = k `div` m + 1) ∧
  (k `mod` m + 1 ≠ m → (k + 1) `mod` m = k `mod` m + 1 ∧ (k + 1) `div` m = k `div` m).
Proof.
  intros Hm. destruct (div_mod_eq k m Hm) as [Hk Hr]. split; intros Hc.
  - destruct (div_mod_of (k `div` m + 1) 0 m) as [Hd Hmo]; [lia|].
    assert (E : k + 1 = (k `div` m + 1) * m + 0) by lia.
    split; rewrite E at 1; done.
  - destruct (div_mod_of (k `div` m) (k `mod` m + 1) m) as [Hd Hmo]; [lia|].
    assert (E : k + 1 = k `div` m * m + (k `mod` m + 1)) by lia.
    split; rewrite E at 1; done.
Qed.

Lemma div_nonneg k m : 0 ≤ k → 0 < m → 0 ≤ k `div` m ≤ k.
Proof.
  intros Hk Hm. split; [apply Z.div_pos; lia|].
  destruct (div_mod_eq k m Hm) as [Hd Hr].
  assert (0 ≤ k `div` m) by (apply Z.div_pos; lia). nia.
Qed.

(** Every slot lies inside the scratch array, divisible or not. *)
Lemma slot_bound m w k :
  0 < m → 0 ≤ k < w → 0 ≤ slot m (w `div` m) k < w.
Proof.
  intros Hm Hk. unfold slot.
  destruct (div_mod_eq k m Hm) as [Hkd Hkr].
  destruct (div_mod_eq w m Hm) as [Hwd Hwr].
  destruct (div_nonneg k m) as [Hq _]; [lia..|].
  destruct (div_nonneg w m) as [Hns _]; [lia..|].
  set (q := k `div` m) in *. set (r := k `mod` m) in *.
  set (ns := w `div` m) in *. set (t := w `mod` m) in *.
  split; [nia|].
  assert (Hrs : (r + 1) * ns ≤ m * ns) by nia.
  destruct (decide (q < ns)) as [Hlt|Hge]; [nia|].
  assert (q = ns) by nia. subst q. nia.
Qed.

(** Below [newstride] positions per sub-stream, distinct elements get
    distinct slots. *)
Lemma slot_inj m ns k k' :
  0 < m → 0 ≤ k → 0 ≤ k' → k `div` m < ns → k' `div` m < ns →
  slot m ns k = slot m ns k' → k = k'.
Proof.
  intros Hm Hk Hk' Hq Hq'. unfold slot.
  destruct (div_mod_eq k m Hm) as [Hkd Hkr].
  destruct (div_mod_eq k' m Hm) as [Hkd' Hkr'].
  destruct (div_nonneg k m) as [Hq0 _]; [lia..|].
  destruct (div_nonneg k' m) as [Hq0' _]; [lia..|].
  set (q := k `div` m) in *. set (r := k `mod` m) in *.
  set (q' := k' `div` m) in *. set (r' := k' `mod` m) in *.
  intros Heq.
  assert (r = r').
  { destruct (decide (r < r')); [nia|]. destruct (decide (r' < r)); [nia|lia]. }
  subst r'. assert (q = q') by nia. nia.
Qed.

Lemma div_lt_of_lt k m n : 0 < m → k < n * m → k `div` m < n.
Proof. intros Hm Hk. apply Z.div_lt_upper_bound; lia. Qed.

(** ** The reshape *)

Section Reshape.
Context {T : Type}.
Implicit Types (s : CUDAStream T).

(** Inside a well-formed buffer every element of every sub-stream is a cell
    of the host storage. *)
Lemma SysStream_get_wf s j i :
  wf s → 0 ≤ j < _subStreams s → 0 ≤ i < _length s →
  ∃ host, _pSysData s = Some host ∧
    SysStream_get s j i = lookupZ host (j * _stride s + i) ∧
    0 ≤ j * _stride s + i < Z.of_nat (length host).
Proof.
  intros [Hl Hn Hu He (host & Hh & Hlen) _ Hv] Hj Hi.
  exists host. destruct (Hv j Hj) as [Hsv _].
  unfold SysStream_get. rewrite Hsv, Hh. cbn. split; [done|]. split; [done|nia].
Qed.

Lemma element_row_major s i j :
  0 ≤ j < _subStreams s →
  element s (i * _subStreams s + j) = SysStream_get s j i.
Proof.
  intros Hj. unfold element.
  destruct (div_mod_of i j (_subStreams s) Hj) as [-> ->]. done.
Qed.

Lemma gather_step s m i j (st : list (option T) * Z * Z) :
  wf s → 0 < m < UINT_MODULUS →
  0 ≤ i < _length s → 0 ≤ j < _subStreams s →
  let ns := (_stride s * _subStreams s) `div` m in
  gathered s m ns (i * _subStreams s + j) st →
  ∃ st', gather s m ns i j st = Returned st' ∧
         gathered s m ns (i * _subStreams s + j + 1) st'.
Proof.
  intros Hwf Hm Hi Hj ns Hg.
  destruct (SysStream_get_wf s j i Hwf Hj Hi) as (host & Hh & Hget & Hin).
  destruct (lookupZ_is_Some host _ Hin) as [v Hv].
  destruct Hwf as [Hl Hn Hu He _ _ _].
  destruct st as [[pTemp stream] pos]. destruct Hg as (-> & -> & Hlen & Hcont).
  set (N := _subStreams s) in *. set (L := _length s) in *.
  set (W := _stride s * N) in *. set (k := i * N + j) in *.
  assert (Hk : 0 ≤ k < L * N) by (unfold k; nia).
  assert (HkW : 0 ≤ k < W) by (unfold W; nia).
  destruct (slot_bound m W k) as [Hs0 Hs1]; [lia..|]. fold ns in Hs0, Hs1.
  destruct (div_mod_eq k m) as [Hkd Hkr]; [lia|].
  destruct (div_nonneg k m) as [Hq0 Hq1]; [lia..|].
  destruct (div_nonneg W m) as [Hns0 _]; [lia..|]. fold ns in Hns0.
  assert (Hti : temp_index ns (k `mod` m) (k `div` m) = slot m ns k).
  { unfold temp_index, slot in *. unfold UINT_MODULUS in *.
    rewrite (wmul_small (k `mod` m) ns) by (unfold UINT_MODULUS; nia).
    rewrite wadd_small by (unfold UINT_MODULUS; lia). done. }
  unfold gather. rewrite Hget, Hv. cbn. rewrite Hti.
  rewrite insertZ_Some by lia. cbn.
  rewrite (wadd_small (k `mod` m) 1) by lia.
  assert (Hcont' : L * N ≤ ns * m → ∀ k', 0 ≤ k' < k + 1 →
            lookupZ (<[Z.to_nat (slot m ns k) := v]> pTemp) (slot m ns k') = element s k').
  { intros Hnc k' Hk'. destruct (decide (k' = k)) as [->|Hne].
    - rewrite lookupZ_insert_eq by lia. unfold k.
      rewrite element_row_major by done. by rewrite Hget.
    - rewrite lookupZ_insert_ne; [apply Hcont; [done|lia]|lia|].
      intros Heq. apply Hne. symmetry.
      apply (slot_inj m ns k k'); try lia; apply div_lt_of_lt; lia. }
  destruct (succ_wrap k m) as [Hwrap Hstay]; [lia|].
  case_bool_decide as Hc.
  - destruct (Hwrap Hc) as [Hmo Hdi]. eexists. split; [done|].
    cbn. rewrite Hmo, Hdi, length_insert.
    rewrite wadd_small by (unfold UINT_MODULUS in *; lia). done.
  - destruct (Hstay Hc) as [Hmo Hdi]. eexists. split; [done|].
    cbn. rewrite Hmo, Hdi, length_insert. done.
Qed.

Lemma gather_loop s m :
  wf s → 0 < m < UINT_MODULUS →
  let ns := (_stride s * _subStreams s) `div` m in
  ∃ st,
    for_upto (_length s) (λ i, for_upto (_subStreams s) (λ j, gather s m ns i j))
      (new_array (wmul (_subStreams s) (_stride s)), 0, 0) = Returned st ∧
    gathered s m ns (_length s * _subStreams s) st.
Proof.
  intros Hwf Hm ns.
  pose proof Hwf as [Hl Hn Hu He _ _ _].
  apply (for_upto_inv (λ i st, gathered s m ns (i * _subStreams s) st)); [lia| |].
  - cbn. rewrite Z.mod_0_l, Z.div_0_l by lia. repeat split.
    + rewrite length_new_array, wmul_comm, wmul_small by nia. nia.
    + intros _ k' Hk'. lia.
  - intros i st Hi Hg.
    replace ((i + 1) * _subStreams s) with (i * _subStreams s + _subStreams s) by lia.
    apply (for_upto_inv (λ j st, gathered s m ns (i * _subStreams s + j) st)); [lia| |].
    + by rewrite Z.add_0_r.
    + intros j st' Hj Hg'. rewrite Z.add_assoc. by apply gather_step.
Qed.

Lemma scatter_step pTemp m ns nl s1 i j (st : CUDAStream T) :
  0 < m → 0 ≤ ns → nl ≤ ns → m * ns < UINT_MODULUS →
  m * ns ≤ Z.of_nat (length pTemp) →
  (∀ host1, _pSysData s1 = Some host1 → m * ns ≤ Z.of_nat (length host1)) →
  (∀ j, 0 ≤ j < m → sys_view s1 j = Some (j * ns)) →
  0 ≤ i < nl → 0 ≤ j < m →
  scattered pTemp m ns (i * m + j) s1 st →
  ∃ st', scatter pTemp ns i j st = Returned st' ∧
         scattered pTemp m ns (i * m + j + 1) s1 st'.
Proof.
  intros Hm Hns Hnl Hfit HpT Hh1 Hviews Hi Hj
    [Hl Hn Hs Hsys Hdev Hdd Hnm (host1 & host & Hhost1 & Hhost & Hlen & Hcont)].
  specialize (Hh1 host1 Hhost1).
  destruct (div_mod_of i j m Hj) as [Hdi Hmo].
  set (c := i * m + j) in *.
  assert (Hslot : slot m ns c = j * ns + i) by (unfold slot; by rewrite Hdi, Hmo).
  assert (Hb : 0 ≤ j * ns + i < m * ns) by nia.
  assert (Hti : temp_index ns j i = slot m ns c).
  { unfold temp_index. rewrite (wmul_small j ns) by nia.
    rewrite wadd_small by lia. done. }
  destruct (lookupZ_is_Some pTemp (slot m ns c)) as [v Hv]; [lia|].
  unfold scatter. rewrite Hti, Hv. cbn.
  unfold SysStream_set.
  assert (Hsv : sys_view st j = Some (j * ns)).
  { unfold sys_view. rewrite Hsys. by apply Hviews. }
  rewrite Hsv, Hhost. cbn. rewrite <- Hslot.
  rewrite insertZ_Some by lia. cbn.
  eexists. split; [done|]. split; try done.
  exists host1, (<[Z.to_nat (slot m ns c) := v]> host). cbn.
  repeat split; [done|by rewrite length_insert|].
  intros c' Hc'. destruct (decide (c' = c)) as [->|Hne].
  - rewrite lookupZ_insert_eq by lia. done.
  - rewrite lookupZ_insert_ne; [apply Hcont; lia|lia|].
    intros Heq. apply Hne. symmetry.
    assert (c' `div` m ≤ c `div` m) by (apply Z.div_le_mono; lia).
    apply (slot_inj m ns c c'); lia.
Qed.

Lemma scatter_loop pTemp m ns nl s1 :
  0 < m → 0 ≤ nl ≤ ns → m * ns < UINT_MODULUS →
  m * ns ≤ Z.of_nat (length pTemp) →
  (∃ host1, _pSysData s1 = Some host1 ∧ m * ns ≤ Z.of_nat (length host1)) →
  (∀ j, 0 ≤ j < m → sys_view s1 j = Some (j * ns)) →
  ∃ st, for_upto nl (λ i, for_upto m (λ j, scatter pTemp ns i j)) s1 = Returned st ∧
        scattered pTemp m ns (nl * m) s1 st.
Proof.
  intros Hm Hnl Hfit HpT (host1 & Hhost1 & Hlen1) Hviews.
  apply (for_upto_inv (λ i st, scattered pTemp m ns (i * m) s1 st)); [lia| |].
  - split; try done. exists host1, host1. repeat split; try done.
    intros c' Hc'. lia.
  - intros i st Hi Hsc.
    replace ((i + 1) * m) with (i * m + m) by lia.
    apply (for_upto_inv (λ j st, scattered pTemp m ns (i * m + j) s1 st)); [lia| |].
    + by rewrite Z.add_0_r.
    + intros j st' Hj Hsc'. rewrite Z.add_assoc.
      apply (scatter_step pTemp m ns nl s1); try done; try lia.
      intros h Hh. rewrite Hhost1 in Hh. by injection Hh as <-.
Qed.

Lemma capacity_tables (s st : CUDAStream T) :
  _pSysStream st = _pSysStream s → _pDevStream st = _pDevStream s →
  capacity st = capacity s.
Proof. intros Hs Hd. unfold capacity. by rewrite Hs, Hd. Qed.

(** What [Collapse] does to a well-formed buffer when the view tables have
    room for the new number of sub-streams: it returns, the shape is the
    one computed with truncating divisions, the buffer is well-formed
    again, and, unless a sub-stream of the new layout overflowed into the
    next one, the row-major sequence is kept up to the new element count. *)
Lemma Collapse_spec s m il :
  wf s → 1 ≤ m ≤ capacity s → m < UINT_MODULUS →
  let ns := (_stride s * _subStreams s) `div` m in
  let nl := (_length s * _subStreams s) `div` m in
  ∃ s', Collapse m il s = Returned s' ∧
    _stride s' = ns ∧ _length s' = nl ∧ _subStreams s' = m ∧
    capacity s' = capacity s ∧ _pDevData s' = _pDevData s ∧ _name s' = _name s ∧
    wf s' ∧
    (_length s * _subStreams s ≤ ns * m →
     ∀ k, 0 ≤ k < nl * m → element s' k = element s k).
Proof.
  intros Hwf Hm Hu ns nl.
  pose proof Hwf as [Hl Hn _ He (host & Hhost & Hhlen) (dev & Hdev & Hdlen) Hv].
  set (W := _stride s * _subStreams s) in *.
  set (LN := _length s * _subStreams s) in *.
  assert (HLN : 0 ≤ LN ≤ W) by (unfold LN, W; nia).
  destruct (div_mod_eq W m) as [HWd HWr]; [lia|]. fold ns in HWd.
  destruct (div_mod_eq LN m) as [HLd HLr]; [lia|]. fold nl in HLd.
  destruct (div_nonneg W m) as [Hns0 _]; [lia..|]. fold ns in Hns0.
  destruct (div_nonneg LN m) as [Hnl0 _]; [lia..|]. fold nl in Hnl0.
  assert (Hnlns : nl ≤ ns) by (apply Z.div_le_mono; lia).
  destruct (gather_loop s m Hwf) as ([[pTemp stream] pos] & Hg & _ & _ & HpT & Hgc); [lia|].
  fold W ns in Hg, HpT, Hgc. fold LN in Hgc.
  destruct (point_views_loop ns m s) as (s1 & Hr & [Hl1 Hn1 Hs1 Hh1 Hd1 Hnm1 Hc1 Hv1]); [lia|].
  assert (Hviews : ∀ j, 0 ≤ j < m →
            sys_view s1 j = Some (j * ns) ∧ dev_view s1 j = Some (j * ns)).
  { intros j Hj. destruct (Hv1 j Hj) as [-> ->].
    rewrite wmul_small; [done|]. unfold UINT_MODULUS in *. nia. }
  destruct (scatter_loop pTemp m ns nl s1)
    as (s2 & Hsc & [Hl2 Hn2 Hs2 Hsys2 Hdev2 Hdd2 Hnm2 (h1 & host' & Hh1' & Hhost' & Hlen' & Hcont)]);
    [lia|lia|nia|nia| | |].
  { exists host. rewrite Hh1. split; [done|nia]. }
  { intros j Hj. by apply Hviews. }
  assert (h1 = host) by congruence. subst h1.
  unfold Collapse. rewrite bool_decide_false by lia.
  rewrite (wmul_small (_stride s)), (wmul_small (_length s)) by (fold W LN; lia).
  fold W LN ns nl. rewrite Hg. cbn. rewrite Hr. cbn. rewrite Hsc. cbn.
  eexists. split; [done|]. cbn.
  assert (Hcap : capacity (with_shape s2 ns nl m) = capacity s).
  { rewrite <- Hc1. by apply capacity_tables; cbn. }
  repeat split; try done; cbn.
  - congruence.
  - congruence.
  - lia.
  - rewrite Hcap. lia.
  - nia.
  - exists host'. split; [done|]. nia.
  - exists dev. split; [congruence|]. nia.
  - unfold sys_view. cbn. rewrite Hsys2. by apply Hviews.
  - unfold dev_view. cbn. rewrite Hdev2. by apply Hviews.
  - intros Hnc k Hk.
    destruct (div_mod_eq k m) as [Hkd Hkr]; [lia|].
    rewrite <- Hgc by nia. rewrite <- Hcont by done.
    unfold element, SysStream_get, sys_view. cbn. rewrite Hsys2, Hhost'.
    destruct (Hviews (k `mod` m)) as [Hsv _]; [lia|].
    unfold sys_view in Hsv. rewrite Hsv. done.
Qed.

End Reshape.

(** ** Reading a buffer column by column or row by row *)

Section Transpose.
Context {A B C : Type}.

Lemma join_fmap_nil (l : list B) : mjoin ((λ _ : B, @nil C) <$> l) = [].
Proof. induction l as [|b l IH]; [done|]. cbn. exact IH. Qed.

Lemma join_fmap_cons (h : B → C) (t : B → list C) (l : list B) :
  mjoin ((λ b, h b :: t b) <$> l) ≡ₚ (h <$> l) ++ mjoin (t <$> l).
Proof.
  induction l as [|b l IH]; [done|]. cbn. rewrite IH.
  apply Permutation_skip.
  rewrite !(assoc_L (++)). apply Permutation_app_tail, Permutation_app_comm.
Qed.

(** Enumerating a table row after row or column after column gives the
    same elements. *)
Lemma join_transpose (g : A → B → C) (l1 : list A) (l2 : list B) :
  mjoin ((λ a, g a <$> l2) <$> l1) ≡ₚ mjoin ((λ b, (λ a, g a b) <$> l1) <$> l2).
Proof.
  induction l1 as [|a l1 IH]; cbn.
  - by rewrite join_fmap_nil.
  - rewrite IH.
    rewrite (join_fmap_cons (g a) (λ b, (λ a', g a' b) <$> l1) l2). done.
Qed.

End Transpose.

Lemma seqZ_succ (m n : Z) : 0 ≤ n → seqZ m (n + 1) = seqZ m n ++ [m + n].
Proof.
  intros Hn. rewrite seqZ_app by lia. by f_equal.
Qed.

(** Rows of [n] entries laid one after the other: entry [j] of row [i] is
    entry [i * n + j] of the whole. *)
Lemma join_rows {C} (f : Z → Z → C) (l n : Z) :
  0 ≤ l → 0 ≤ n →
  mjoin ((λ i, (λ j, f j i) <$> seqZ 0 n) <$> seqZ 0 l)
  = (λ k, f (k `mod` n) (k `div` n)) <$> seqZ 0 (l * n).
Proof.
  intros Hl Hn. pattern l. apply natlike_ind; [| |exact Hl].
  - rewrite Z.mul_0_l. by rewrite (seqZ_nil 0 0) by lia.
  - clear l Hl. intros l Hl IH. unfold Z.succ.
    rewrite seqZ_succ by lia. rewrite fmap_app, join_app, IH. cbn.
    replace ((l + 1) * n) with (l * n + n) by lia.
    rewrite seqZ_app, fmap_app by nia. f_equal.
    rewrite app_nil_r, !Z.add_0_l.
    rewrite <- (Z.add_0_r (l * n)), <- fmap_add_seqZ, <- list_fmap_compose.
    apply list_fmap_ext. intros i j [-> Hj]%lookup_seqZ. cbn.
    destruct (div_mod_of l (0 + Z.of_nat i) n) as [Hd Hm]; [lia|].
    by rewrite Hd, Hm.
Qed.

Section Contents.
Context {T : Type}.
Implicit Types (s : CUDAStream T).

(** The elements of a buffer are those of its row-major sequence. *)
Lemma contents_row_major s :
  0 ≤ _length s → 0 ≤ _subStreams s → contents s ≡ₚ row_major s.
Proof.
  intros Hl Hn. unfold contents, row_major, substream, element.
  rewrite <- (join_rows (SysStream_get s)) by done.
  apply (join_transpose (SysStream_get s)).
Qed.

End Contents.

(** ** Consequences for divisible reshapes *)

Section Divisible.
Context {T : Type}.
Implicit Types (s : CUDAStream T).

Lemma divide_div_mul a m : 0 < m → (m | a) → a `div` m * m = a.
Proof.
  intros Hm Hd. apply Z.mod_divide in Hd; [|lia].
  destruct (div_mod_eq a m Hm) as [Ha _]. lia.
Qed.

(** When the element count is a multiple of the new number of sub-streams,
    [Collapse] keeps the whole row-major sequence. *)
Lemma Collapse_divisible s m il :
  wf s → 1 ≤ m ≤ capacity s → m < UINT_MODULUS →
  (m | _length s * _subStreams s) →
  ∃ s', Collapse m il s = Returned s' ∧
    _stride s' = (_stride s * _subStreams s) `div` m ∧
    _length s' = (_length s * _subStreams s) `div` m ∧
    _subStreams s' = m ∧
    capacity s' = capacity s ∧ wf s' ∧
    _length s' * _subStreams s' = _length s * _subStreams s ∧
    (∀ k, 0 ≤ k < _length s * _subStreams s → element s' k = element s k).
Proof.
  intros Hwf Hm Hu Hdiv.
  destruct (Collapse_spec s m il Hwf Hm Hu)
    as (s' & Hc & Hs & Hl & Hn & Hcap & _ & _ & Hwf' & Hel).
  pose proof (divide_div_mul _ m ltac:(lia) Hdiv) as Hex.
  pose proof (wf_length s' Hwf') as Hls. rewrite Hs, Hl in Hls.
  exists s'. split_and!; try done.
  - by rewrite Hl, Hn.
  - intros k Hk. apply Hel; [nia|lia].
Qed.

Lemma row_major_Collapse s m il s' :
  wf s → 1 ≤ m ≤ capacity s → m < UINT_MODULUS →
  (m | _length s * _subStreams s) →
  Collapse m il s = Returned s' → row_major s' = row_major s.
Proof.
  intros Hwf Hm Hu Hdiv Hc.
  destruct (Collapse_divisible s m il Hwf Hm Hu Hdiv)
    as (s'' & Hc' & _ & _ & _ & _ & _ & Hcount & Hel).
  rewrite Hc in Hc'. injection Hc' as <-.
  unfold row_major. rewrite Hcount.
  apply list_fmap_ext. intros i k [-> Hk]%lookup_seqZ. apply Hel. lia.
Qed.

(** The elements of one sub-stream are every [_subStreams]-th element of
    the row-major sequence. *)
Lemma substream_element s j :
  0 ≤ j < _subStreams s →
  substream s j = (λ i, element s (i * _subStreams s + j)) <$> seqZ 0 (_length s).
Proof.
  intros Hj. unfold substream. apply list_fmap_ext. intros n i _.
  by rewrite element_row_major.
Qed.

End Divisible.

(** ** Writing elements keeps a buffer well-formed *)

Section Writes.
Context {T : Type}.
Implicit Types (s : CUDAStream T).

Lemma for_loop_preserves {St} (P : St → Prop) (body : Z → St → outcome T St) n i0 st st' :
  (∀ i st st', P st → body i st = Returned st' → P st') →
  P st → for_loop n i0 body st = Returned st' → P st'.
Proof.
  intros Hstep. revert i0 st. induction n as [|n IH]; intros i0 st HP; cbn.
  - by intros [= <-].
  - destruct (body i0 st) as [st1| |] eqn:Hb; cbn; [|done..].
    apply IH. by eapply Hstep.
Qed.

Lemma SysStream_set_wf s j i v s' :
  wf s → SysStream_set j i v s = Returned s' → wf s' ∧ capacity s' = capacity s.
Proof.
  intros [Hl Hn Hu He (host & Hh & Hlen) Hd Hv]. unfold SysStream_set.
  destruct (sys_view s j) as [p|]; [|done]. cbn. rewrite Hh. cbn.
  destruct (insertZ host (p + i) v) as [host'|] eqn:Hi; [|done]. cbn.
  intros [= <-]. apply insertZ_inv in Hi as [_ ->].
  split; [|done]. split; try done.
  exists (<[Z.to_nat (p + i) := v]> host). split; [done|]. by rewrite length_insert.
Qed.

Lemma populate_wf (of_Z : Z → T) j base n s s' :
  wf s → populate of_Z j base n s = Returned s' → wf s' ∧ capacity s' = capacity s.
Proof.
  intros Hwf. unfold populate, for_upto.
  apply (for_loop_preserves (λ st, wf st ∧ capacity st = capacity s)); [|done].
  intros i st st' [Hw Hc] Hb. rewrite <- Hc. by eapply SysStream_set_wf.
Qed.

End Writes.

(** ** What a returning call leaves in the view tables *)

Section ViewsAfter.
Context {T : Type} `{!Sized T}.
Implicit Types (s : CUDAStream T).

Lemma for_loop_post {St} (P : Z → St → Prop) (body : Z → St → outcome T St) n i0 st st' :
  (∀ i st st', i0 ≤ i < i0 + Z.of_nat n → P i st → body i st = Returned st' → P (i + 1) st') →
  P i0 st → for_loop n i0 body st = Returned st' → P (i0 + Z.of_nat n) st'.
Proof.
  revert i0 st. induction n as [|n IH]; intros i0 st Hstep HP; cbn [for_loop].
  - intros [= <-]. by replace (i0 + Z.of_nat 0) with i0 by lia.
  - destruct (body i0 st) as [st1| |] eqn:Hb; cbn; [|done..].
    intros Hl. replace (i0 + Z.of_nat (S n)) with (i0 + 1 + Z.of_nat n) by lia.
    apply (IH (i0 + 1) st1); [|eapply Hstep; [lia|done..]|done].
    intros i st2 st3 Hi. apply Hstep. lia.
Qed.

Lemma point_views_post stride i s s' :
  0 ≤ i → point_views stride i s = Returned s' →
  views_upto stride i s →
  views_upto stride (i + 1) s' ∧
  _length s' = _length s ∧ _subStreams s' = _subStreams s ∧ _stride s' = _stride s.
Proof.
  intros Hi. unfold point_views, set_sys_view, set_dev_view.
  destruct (_pSysStream s) as [sys|] eqn:Hsys; [|done]. cbn.
  destruct (insertZ sys i _) as [sys'|] eqn:Hi1; [|done]. cbn.
  destruct (_pDevStream s) as [dev|] eqn:Hdev; [|done]. cbn.
  destruct (insertZ dev i _) as [dev'|] eqn:Hi2; [|done]. cbn.
  intros [= <-] Hv. cbn. split; [|done].
  apply insertZ_inv in Hi1 as [Hb1 ->]. apply insertZ_inv in Hi2 as [Hb2 ->].
  intros j Hj. unfold sys_view, dev_view. cbn.
  destruct (decide (j = i)) as [->|Hne].
  - by rewrite !lookupZ_insert_eq by lia.
  - rewrite !lookupZ_insert_ne by lia.
    destruct (Hv j) as [Hvs Hvd]; [lia|].
    unfold sys_view in Hvs. unfold dev_view in Hvd.
    rewrite Hsys in Hvs. rewrite Hdev in Hvd. done.
Qed.

Lemma point_views_loop_post stride n s s' :
  for_upto n (point_views stride) s = Returned s' →
  views_upto stride n s' ∧
  _length s' = _length s ∧ _subStreams s' = _subStreams s ∧ _stride s' = _stride s.
Proof.
  intros Hl. unfold for_upto in Hl.
  apply (for_loop_post (λ i st, views_upto stride i st ∧ _length st = _length s ∧
           _subStreams st = _subStreams s ∧ _stride st = _stride s)) in Hl.
  - destruct Hl as (Hv & ?). split; [|done].
    intros j Hj. apply Hv. lia.
  - intros i st st' Hi (Hv & Hl' & Hn' & Hs') Hb.
    destruct (point_views_post stride i st st') as (? & -> & -> & ->); [lia|done..].
  - split; [|done]. intros j Hj. lia.
Qed.

Lemma SysStream_set_layout s j i v s' :
  SysStream_set j i v s = Returned s' → same_layout s s'.
Proof.
  unfold SysStream_set.
  destruct (sys_view s j) as [p|]; [|done]. cbn.
  destruct (_pSysData s) as [host|]; [|done]. cbn.
  destruct (insertZ host (p + i) v) as [host'|]; [|done]. cbn.
  by intros [= <-].
Qed.

Lemma same_layout_trans s1 s2 s3 :
  same_layout s1 s2 → same_layout s2 s3 → same_layout s1 s3.
Proof. unfold same_layout. intros (?&?&?&?&?) (?&?&?&?&?). split_and!; congruence. Qed.

Lemma scatter_loop_layout (pTemp : list (option T)) ns nl m s s' :
  for_upto nl (λ i, for_upto m (λ j, scatter pTemp ns i j)) s = Returned s' →
  same_layout s s'.
Proof.
  unfold for_upto at 1.
  apply (for_loop_preserves (same_layout s)); [|done].
  intros i st st' Hst. unfold for_upto.
  apply (for_loop_preserves (same_layout s)); [|done].
  intros j st1 st2 Hst1. unfold scatter.
  destruct (lookupZ pTemp _) as [v|]; [|done]. cbn.
  intros Hset%SysStream_set_layout. by eapply same_layout_trans.
Qed.

(** [Collapse], whenever it returns, leaves the views of all its new
    sub-streams at [base + i * newstride], without wrap-around. *)
Lemma Collapse_views s m il s' :
  Collapse m il s = Returned s' →
  _subStreams s' = m ∧
  _stride s' = wmul (_stride s) (_subStreams s) `div` m ∧
  views_ok s'.
Proof.
  unfold Collapse. case_bool_decide as Hm0; [done|].
  set (ns := wmul (_stride s) (_subStreams s) `div` m).
  destruct (for_upto (_length s) _ _) as [[[pTemp stream] pos]| |]; [|done..]. cbn.
  destruct (for_upto m (point_views ns) s) as [s1| |] eqn:Hremap; [|done..]. cbn.
  destruct (for_upto _ _ s1) as [s2| |] eqn:Hscatter; [|done..]. cbn.
  intros [= <-]. cbn. split; [done|]. split; [done|].
  apply point_views_loop_post in Hremap as (Hv & _).
  apply scatter_loop_layout in Hscatter as (_ & _ & _ & Hsys & Hdev).
  intros j Hj. cbn in Hj. unfold sys_view, dev_view. cbn. rewrite Hsys, Hdev.
  destruct (Hv j Hj) as [Hvs Hvd]. unfold sys_view in Hvs. unfold dev_view in Hvd.
  rewrite Hvs, Hvd.
  pose proof (wmul_uint (_stride s) (_subStreams s)) as [Hw0 Hw1].
  destruct (div_mod_eq (wmul (_stride s) (_subStreams s)) m) as [Hd Hr]; [lia|].
  fold ns in Hd.
  assert (0 ≤ ns) by (apply Z.div_pos; lia).
  rewrite wmul_small; [done|]. nia.
Qed.

Lemma construct_views d len ss name s :
  construct d len ss name = Returned s →
  _subStreams s = ss ∧ _stride s = Z.land (wadd len 0xf) 0xfffffff0 ∧
  views_upto (_stride s) ss s.
Proof.
  unfold construct, Allocate, RTERROR. cbn. case_bool_decide; [done|].
  intros (Hv & _ & Hn & Hs)%point_views_loop_post. cbn in *.
  by rewrite Hs.
Qed.

Lemma Upload_layout d s s' : Upload d s = Returned s' → same_layout s s'.
Proof.
  unfold Upload, RTERROR. case_bool_decide; [done|].
  destruct (_pDevData s); [|done]. cbn. destruct (_pSysData s); [|done]. cbn.
  destruct (memcpy _ _ _); [|done]. cbn. by intros [= <-].
Qed.

Lemma Download_layout d s s' : Download d s = Returned s' → same_layout s s'.
Proof.
  unfold Download, RTERROR. case_bool_decide; [done|].
  destruct (_pSysData s); [|done]. cbn. destruct (_pDevData s); [|done]. cbn.
  destruct (memcpy _ _ _); [|done]. cbn. by intros [= <-].
Qed.

Lemma views_ok_layout s s' : same_layout s s' → views_ok s → views_ok s'.
Proof.
  intros (_ & Hn & Hs & Hsys & Hdev) Hv j Hj.
  unfold sys_view, dev_view. rewrite Hs, Hsys, Hdev. apply Hv. by rewrite <- Hn.
Qed.

End ViewsAfter.

(** ** Checking a given buffer *)

Section Checks.
Context {T : Type}.
Implicit Types (s : CUDAStream T).

Lemma views_okb_sound s : views_okb s = true → views_ok s.
Proof.
  unfold views_okb. rewrite forallb_forall. intros Hall i Hi.
  specialize (Hall i). rewrite <- list_elem_of_In, elem_of_seqZ in Hall.
  specialize (Hall ltac:(lia)).
  apply andb_prop in Hall as [H1%bool_decide_eq_true H2%bool_decide_eq_true]. done.
Qed.

Lemma holdsb_sound stride n (p : option (list (option T))) :
  holdsb stride n p = true →
  ∃ a, p = Some a ∧ stride * n ≤ Z.of_nat (length a).
Proof.
  destruct p as [a|]; [|done]. cbn. intros H%bool_decide_eq_true. by exists a.
Qed.

Lemma wfb_sound s : wfb s = true → wf s.
Proof.
  unfold wfb. rewrite !andb_true_iff, !bool_decide_eq_true.
  intros [[[[[[? ?] ?] ?] Hh%holdsb_sound] Hd%holdsb_sound] Hv%views_okb_sound].
  by split.
Qed.

(** A loop whose first iteration runs into undefined behaviour. *)
Lemma for_upto_first_undefined {St} (body : Z → St → outcome T St) bound st :
  0 < bound → body 0 st = Undefined → for_upto bound body st = Undefined.
Proof.
  intros Hb H0. unfold for_upto.
  replace (Z.to_nat bound) with (S (Z.to_nat (bound - 1))) by lia.
  cbn [for_loop]. by rewrite H0.
Qed.

End Checks.

(** ** Helper facts for the claims *)

Lemma ceil_div_16 a : ceil_div a 16 = (a + 15) `div` 16.
Proof.
  unfold ceil_div.
  destruct (div_mod_eq (a + 15) 16) as [Hd Hr]; [lia|].
  rewrite <- (Z.div_unique (- a) 16 (- ((a + 15) `div` 16)) (15 - (a + 15) `mod` 16)); lia.
Qed.

Lemma ceil_div_16_least a :
  (ceil_div a 16 * 16) `mod` 16 = 0 ∧ a ≤ ceil_div a 16 * 16 < a + 16.
Proof.
  rewrite ceil_div_16. destruct (div_mod_eq (a + 15) 16) as [Hd Hr]; [lia|].
  split; [apply Z.mod_mul; lia|lia].
Qed.

Section Transfers.
Context {T : Type}.

Lemma memcpy_back (a b b' : list (option T)) n a' :
  memcpy b a n = Some b' → memcpy a b' n = Some a' → a' = a.
Proof.
  unfold memcpy. case_bool_decide as H1; [|done]. intros [= <-].
  case_bool_decide as H2; [|done]. intros [= <-].
  destruct (decide (0 ≤ n)) as [Hn|Hn].
  - rewrite take_app_le by (rewrite length_take; lia).
    rewrite take_take, Nat.min_id. apply take_drop.
  - replace (Z.to_nat n) with 0%nat by lia. done.
Qed.

Lemma memcpy_length (dst src r : list (option T)) n :
  memcpy dst src n = Some r → length r = length dst.
Proof.
  unfold memcpy. case_bool_decide as Hn; [|done]. intros [= <-].
  rewrite length_app, length_take, length_drop. lia.
Qed.

Lemma memcpy_lookup (dst src r : list (option T)) n x :
  memcpy dst src n = Some r → 0 ≤ n →
  lookupZ r x = if bool_decide (x < n) then lookupZ src x else lookupZ dst x.
Proof.
  unfold memcpy. case_bool_decide as Hn; [|done]. intros [= <-] Hn0.
  unfold lookupZ. case_bool_decide as Hx; [|by case_bool_decide].
  case_bool_decide as Hlt.
  - rewrite lookup_app_l by (rewrite length_take; lia).
    apply lookup_take_lt. lia.
  - rewrite lookup_app_r by (rewrite length_take; lia).
    rewrite length_take, lookup_drop. f_equal. lia.
Qed.

End Transfers.

Lemma string_app_assoc (a b c : string) : (a +:+ b) +:+ c = a +:+ (b +:+ c).
Proof.
  induction a as [|x a IH]; [done|].
  change (String x a +:+ b) with (String x (a +:+ b)).
  change (String x (a +:+ b) +:+ c) with (String x ((a +:+ b) +:+ c)).
  by rewrite IH.
Qed.

(** What [%s] prints of a label followed by a text: the whole label and
    the text up to its first NUL byte when the label holds none, the label
    up to its first NUL byte otherwise. *)
Lemma c_str_app (a b : string) :
  c_str (a +:+ b) = if bool_decide (c_str a = a) then a +:+ c_str b else c_str a.
Proof.
  induction a as [|c a IH]; [done|].
  change (String c a +:+ b) with (String c (a +:+ b)). cbn.
  destruct (Ascii.eqb c "000") eqn:Hc.
  - by rewrite bool_decide_false.
  - rewrite IH. case_bool_decide as Ha.
    + rewrite bool_decide_true; [done|]. by rewrite Ha.
    + rewrite bool_decide_false; [done|]. by intros [= ?].
Qed.

Section Steps.
Context {T : Type} `{!Sized T}.
Implicit Types (s : CUDAStream T) (d : Device).

Lemma index_set_layout s index v s' :
  index_set index v s = Returned s' → same_layout s s'.
Proof.
  unfold index_set. case_bool_decide; [|done].
  destruct (_pSysData s) as [host|]; [|done]. cbn.
  destruct (insertZ host index v) as [host'|]; [|done]. cbn.
  by intros [= <-].
Qed.

Lemma device_set_layout s x v s' :
  device_set x v s = Returned s' → same_layout s s'.
Proof.
  unfold device_set.
  destruct (_pDevData s) as [dev|]; [|done]. cbn.
  destruct (insertZ dev x v) as [dev'|]; [|done]. cbn.
  by intros [= <-].
Qed.

Lemma populate_completed d (of_Z : Z → T) j base n s s' :
  completed d s → populate of_Z j base n s = Returned s' → completed d s'.
Proof.
  intros Hc. unfold populate, for_upto.
  apply (for_loop_preserves (completed d)); [|done].
  intros i st st' Hst Hb. by eapply completed_view_write.
Qed.

Lemma views_upto_layout s s' :
  same_layout s s' → views_upto (_stride s) (_subStreams s) s →
  views_upto (_stride s') (_subStreams s') s'.
Proof.
  intros (_ & Hn & Hs & Hsys & Hdev) Hv j Hj.
  unfold sys_view, dev_view. rewrite Hs, Hsys, Hdev. apply Hv. by rewrite <- Hn.
Qed.

(** However a buffer was reached, view [j] of either table is at the
    offset [j * _stride] as [unsigned int] arithmetic gives it. *)
Lemma completed_views_upto d s :
  completed d s → views_upto (_stride s) (_subStreams s) s.
Proof.
  induction 1 as [len ss name s Hc|c s s' Hcomp IH Hp
                 |j i v s s' Hcomp IH Hp|index v s s' Hcomp IH Hp
                 |x v s s' Hcomp IH Hp].
  - apply construct_views in Hc as (Hn & Hs & Hv). by rewrite Hn.
  - destruct c as [| |m il]; cbn in Hp.
    + eapply views_upto_layout; [by eapply Upload_layout|done].
    + eapply views_upto_layout; [by eapply Download_layout|done].
    + apply Collapse_views in Hp as (Hn & Hs & Hv).
      intros j Hj. destruct (Hv j Hj) as [-> ->].
      rewrite wmul_small; [done|]. rewrite Hn in Hj. rewrite Hs.
      pose proof (wmul_uint (_stride s) (_subStreams s)) as [Hw0 Hw].
      set (W := wmul (_stride s) (_subStreams s)) in *.
      assert (0 ≤ W `div` m) by (apply Z.div_pos; lia).
      assert (m * (W `div` m) ≤ W) by (apply Z.mul_div_le; lia).
      nia.
  - eapply views_upto_layout; [by eapply SysStream_set_layout|done].
  - eapply views_upto_layout; [by eapply index_set_layout|done].
  - eapply views_upto_layout; [by eapply device_set_layout|done].
Qed.

(** The views of a buffer with at least one sub-stream are at
    [j * _stride] only if the largest offset, [(_subStreams - 1) * _stride],
    is below [2^32]. *)
Lemma views_ok_offsets_fit d s :
  completed d s → 1 ≤ _subStreams s → views_ok s →
  (_subStreams s - 1) * _stride s < UINT_MODULUS.
Proof.
  intros Hc Hn Hv.
  destruct (completed_views_upto d s Hc (_subStreams s - 1)) as [Hup _]; [lia|].
  destruct (Hv (_subStreams s - 1)) as [Hok _]; [lia|].
  rewrite Hup in Hok. injection Hok as Hok. rewrite <- Hok.
  apply wmul_uint.
Qed.

End Steps.

(** * The claims *)

Section Claims.
Context {T : Type} `{!Sized T}.
Implicit Types (s : CUDAStream T) (d : Device).

(** C4, as the code has it: when [cudaMalloc] reports a failure, the
    constructor prints one line, made of the label followed by the text
    ": cudaMalloc in CUDAStream::Allocate failed", a space and the error
    string, each as [%s] prints it, that is up to its first NUL byte, and
    leaves the process through [exit(-1)].  For a label without a NUL byte
    the line holds the whole label and the whole text; for a label with
    one it holds the label up to that byte and none of the text.  Nothing
    is reported to the caller and nothing is released: at that moment the
    two view tables and the host storage are allocated, the device storage
    is not. *)
Theorem construct_failure_exits d len ss name :
  cudaMalloc d (wmul (Z.land (wadd len 0xf) 0xfffffff0) ss * sizeof) ≠ cudaSuccess →
  let error := cudaGetErrorString d
      (cudaMalloc d (wmul (Z.land (wadd len 0xf) 0xfffffff0) ss * sizeof)) in
  ∃ self out,
    construct (T:=T) d len ss name = Exited (-1) out self ∧
    out = printf_s_s (name +:+ ": cudaMalloc in CUDAStream::Allocate failed") error ∧
    (c_str name = name →
     out = name +:+ ": cudaMalloc in CUDAStream::Allocate failed" +:+ " "
             +:+ c_str error +:+ newline) ∧
    (c_str name ≠ name → out = c_str name +:+ " " +:+ c_str error +:+ newline) ∧
    _pSysStream self = Some (new_array ss) ∧
    _pDevStream self = Some (new_array ss) ∧
    _pSysData self = Some (new_array (wmul ss (Z.land (wadd len 0xf) 0xfffffff0))) ∧
    _pDevData self = None.
Proof.
  intros Hbad error. unfold construct, Allocate, RTERROR. cbn.
  rewrite bool_decide_true by done. eexists _, _. split; [done|].
  split; [done|]. unfold printf_s_s. rewrite c_str_app.
  split_and!; try done.
  - intros Hn. rewrite bool_decide_true by done.
    change (c_str ": cudaMalloc in CUDAStream::Allocate failed")
      with ": cudaMalloc in CUDAStream::Allocate failed".
    by rewrite string_app_assoc.
  - intros Hn. by rewrite bool_decide_false.
Qed.

(** C5, within the range of [unsigned int]: for a length of at most
    [2^32 - 16] and a number of sub-streams whose extent fits 32 bits, a
    construction on which [cudaMalloc] succeeds returns a buffer whose
    stride is the length rounded up to a multiple of 16 and whose host and
    device storage hold exactly [stride * subStreams] elements each. *)
Theorem construct_stride_extent d len ss name :
  0 ≤ len → len + 15 < UINT_MODULUS → 1 ≤ ss →
  ceil_div len 16 * 16 * ss < UINT_MODULUS →
  cudaMalloc d (ceil_div len 16 * 16 * ss * sizeof) = cudaSuccess →
  ∃ s host dev, construct d len ss name = Returned s ∧
    _length s = len ∧ _subStreams s = ss ∧
    _stride s = ceil_div len 16 * 16 ∧
    _pSysData s = Some host ∧ Z.of_nat (length host) = _stride s * _subStreams s ∧
    _pDevData s = Some dev ∧ Z.of_nat (length dev) = _stride s * _subStreams s.
Proof.
  intros Hlen Hfit Hss Hext Hok.
  rewrite ceil_div_16 in *.
  assert (Hst : Z.land (wadd len 0xf) 0xfffffff0 = (len + 15) `div` 16 * 16).
  { rewrite stride_round_up by done. lia. }
  assert (0 ≤ (len + 15) `div` 16) by (apply Z.div_pos; lia).
  assert (Hw : wmul ((len + 15) `div` 16 * 16) ss = (len + 15) `div` 16 * 16 * ss).
  { apply wmul_small. nia. }
  destruct (construct_returns d len ss name) as (s & Hc & Hl & Hn & Hs & Hh & Hd & _);
    [lia|by rewrite Hst, Hw|].
  rewrite Hst in Hs. rewrite Hs, (wmul_comm ss), Hw in Hh. rewrite Hs, Hw in Hd.
  eexists s, _, _. rewrite Hh, Hd, Hs, Hn, !length_new_array.
  repeat split; try done; nia.
Qed.

(** C6: [Collapse] never consults [interleave]; two calls that differ only
    in it end in the same way with the same buffer. *)
Theorem Collapse_interleave_inert s newstreams i1 i2 :
  Collapse newstreams i1 s = Collapse newstreams i2 s.
Proof. reflexivity. Qed.

(** C7: if [Upload] returns and the device storage is not modified
    afterwards, a later [Download] that returns leaves every cell of the
    host storage within the extent of the copy, [_stride * _subStreams]
    elements as the code computes it, as it was before the [Upload],
    whatever was written to the host storage in between; a host cell past
    that extent is as it was just before the [Download].  With no host
    write in between, the host storage as a whole is what it was before
    the [Upload], and the [Download] changes nothing of the buffer. *)
Theorem Upload_Download_roundtrip d s s1 t s2 :
  Upload d s = Returned s1 →
  _pDevData t = _pDevData s1 →
  _stride t = _stride s1 → _subStreams t = _subStreams s1 →
  Download d t = Returned s2 →
  (∀ x, 0 ≤ x < wmul (_stride s) (_subStreams s) → host_get s2 x = host_get s x) ∧
  (∀ x, wmul (_stride s) (_subStreams s) ≤ x → host_get s2 x = host_get t x) ∧
  (_pSysData t = _pSysData s1 → _pSysData s2 = _pSysData s) ∧
  (t = s1 → s2 = s1).
Proof.
  unfold Upload, RTERROR.
  case_bool_decide; [done|].
  destruct (_pDevData s) as [dev|] eqn:Hd; [|done]. cbn.
  destruct (_pSysData s) as [host|] eqn:Hh; [|done]. cbn.
  destruct (memcpy dev host _) as [dev'|] eqn:Hup; [|done]. cbn.
  intros [= <-]. cbn. intros Hdev Hst Hss.
  unfold Download, RTERROR. rewrite Hst, Hss, Hdev.
  case_bool_decide; [done|].
  destruct (_pSysData t) as [h|] eqn:Hht; [|done]. cbn.
  destruct (memcpy h dev' _) as [host'|] eqn:Hdown; [|done]. cbn.
  intros [= <-].
  assert (Hn : 0 ≤ wmul (_stride s) (_subStreams s)) by apply wmul_uint.
  unfold host_get. cbn. rewrite Hh, Hht. cbn. split_and!.
  - intros x Hx. rewrite (memcpy_lookup _ _ _ _ _ Hdown) by done.
    rewrite bool_decide_true by lia.
    rewrite (memcpy_lookup _ _ _ _ _ Hup) by done.
    by rewrite bool_decide_true by lia.
  - intros x Hx. rewrite (memcpy_lookup _ _ _ _ _ Hdown) by done.
    by rewrite bool_decide_false by lia.
  - intros [= ->]. f_equal. by eapply memcpy_back.
  - intros ->. cbn in Hht. rewrite Hh in Hht. injection Hht as <-.
    rewrite (memcpy_back _ _ _ _ _ Hup Hdown).
    unfold with_pSysData, with_pDevData. cbn. by rewrite Hh.
Qed.

(** C1: a buffer of 2 sub-streams of length 20 and stride 32 that holds
    0..19 in sub-stream 0 and 100..119 in sub-stream 1 has, after
    [Collapse(1, 1)], stride 64, length 40 and one sub-stream that reads
    0, 100, 1, 101, ..., 19, 119.  ([conv] embeds the integers into the
    element type, as the conversion to [float] does.) *)
Theorem Collapse_example (conv : Z → T) s :
  wf s → _length s = 20 → _subStreams s = 2 → _stride s = 32 →
  substream s 0 = (λ i, Some (Some (conv i))) <$> seqZ 0 20 →
  substream s 1 = (λ i, Some (Some (conv (100 + i)))) <$> seqZ 0 20 →
  ∃ s', Collapse 1 1 s = Returned s' ∧
    _stride s' = 64 ∧ _length s' = 40 ∧ _subStreams s' = 1 ∧
    substream s' 0
    = mjoin ((λ i, [Some (Some (conv i)); Some (Some (conv (100 + i)))]) <$> seqZ 0 20).
Proof.
  intros Hwf HL HN HS H0 H1.
  destruct (Collapse_divisible s 1 1 Hwf) as (s' & Hc & Hs & Hl & Hn & _ & _ & _ & Hel).
  { pose proof (wf_subStreams s Hwf). lia. }
  { unfold UINT_MODULUS. lia. }
  { apply Z.divide_1_l. }
  rewrite HL, HN, HS in *. change (32 * 2 `div` 1) with 64 in Hs.
  change (20 * 2 `div` 1) with 40 in Hl. change (20 * 2) with 40 in Hel.
  exists s'. split_and!; try done.
  rewrite substream_element by lia. rewrite Hn, Hl.
  unfold substream in H0, H1. rewrite HL in H0, H1.
  apply Forall_fmap_ext in H0, H1. rewrite Forall_seqZ in H0, H1.
  transitivity (row_major s).
  - unfold row_major. rewrite HL, HN. apply list_fmap_ext.
    intros n i [-> Hi]%lookup_seqZ. rewrite Z.mul_1_r, Z.add_0_r. apply Hel. lia.
  - unfold row_major, element. rewrite HL, HN.
    rewrite <- (join_rows (SysStream_get s) 20 2) by lia. f_equal.
    apply list_fmap_ext. intros n i [-> Hi]%lookup_seqZ.
    change (seqZ 0 2) with [0; 1]. cbn.
    rewrite H0, H1 by lia. done.
Qed.

(** C2, for the reshapes the view tables have room for: when the element
    count [length * subStreams] of a well-formed buffer is a multiple of
    [newstreams] and [newstreams] is between 1 and the number of entries of
    the view tables, [Collapse] returns, and the elements at positions
    [0, newLength) of the [newstreams] sub-streams afterwards are, as a
    multiset, the elements at positions [0, length) of the sub-streams
    before. *)
Theorem Collapse_conserves s newstreams interleave :
  wf s → 1 ≤ newstreams ≤ capacity s → newstreams < UINT_MODULUS →
  (newstreams | _length s * _subStreams s) →
  ∃ s', Collapse newstreams interleave s = Returned s' ∧
    _subStreams s' = newstreams ∧
    _length s' = (_length s * _subStreams s) `div` newstreams ∧
    contents s' ≡ₚ contents s.
Proof.
  intros Hwf Hm Hu Hdiv.
  destruct (Collapse_divisible s newstreams interleave Hwf Hm Hu Hdiv)
    as (s' & Hc & _ & Hl & Hn & _ & Hwf' & _ & _).
  exists s'. split_and!; try done.
  rewrite !contents_row_major.
  - by rewrite (row_major_Collapse s newstreams interleave s').
  - apply Hwf.
  - apply Hwf.
  - apply Hwf'.
  - apply Hwf'.
Qed.

(** C3, for the reshapes the view tables have room for: a well-formed
    buffer of [N >= 1] sub-streams whose element count is a multiple of
    [M], with [M] between 1 and the number of entries of the view tables,
    is brought by [Collapse(M)] and then [Collapse(N)] to the length it had
    and to sub-streams that read, each at positions [0, length), what they
    read before. *)
Theorem Collapse_round_trip s M il1 il2 :
  wf s → 1 ≤ _subStreams s → 1 ≤ M ≤ capacity s → M < UINT_MODULUS →
  (M | _length s * _subStreams s) →
  ∃ s1 s2, Collapse M il1 s = Returned s1 ∧
    Collapse (_subStreams s) il2 s1 = Returned s2 ∧
    _length s2 = _length s ∧ _subStreams s2 = _subStreams s ∧
    ∀ j, 0 ≤ j < _subStreams s → substream s2 j = substream s j.
Proof.
  intros Hwf HN HM Hu Hdiv.
  pose proof Hwf as [HLS [_ HNcap] HNu _ _ _ _].
  destruct (Collapse_divisible s M il1 Hwf HM Hu Hdiv)
    as (s1 & Hc1 & _ & _ & _ & Hcap1 & Hwf1 & Hcount1 & Hel1).
  destruct (Collapse_divisible s1 (_subStreams s) il2 Hwf1)
    as (s2 & Hc2 & _ & Hl2 & Hn2 & _ & _ & _ & Hel2).
  { rewrite Hcap1. lia. }
  { done. }
  { rewrite Hcount1. apply Z.divide_factor_r. }
  rewrite Hcount1 in Hl2, Hel2. rewrite Z.div_mul in Hl2 by lia.
  exists s1, s2. split_and!; try done.
  intros j Hj. rewrite !substream_element by (rewrite ?Hn2; lia).
  rewrite Hl2, Hn2. apply list_fmap_ext. intros n i [-> Hi]%lookup_seqZ.
  assert (0 ≤ (0 + Z.of_nat n) * _subStreams s + j < _length s * _subStreams s) by nia.
  rewrite Hel2, Hel1 by done. done.
Qed.

(** C8, as the code has it: when [length * subStreams] is not a multiple
    of [newstreams] (and the view tables have room for [newstreams]
    sub-streams), [Collapse] on a well-formed buffer returns like any other
    call, with the shape computed by truncating divisions; the buffer then
    holds fewer elements than before, and, unless a sub-stream of the new
    layout overflowed into the next one, they are the first elements of the
    row-major sequence.  No error is reported. *)
Theorem Collapse_truncates s newstreams interleave :
  wf s → 1 ≤ newstreams ≤ capacity s → newstreams < UINT_MODULUS →
  ¬ (newstreams | _length s * _subStreams s) →
  ∃ s', Collapse newstreams interleave s = Returned s' ∧
    _length s' = (_length s * _subStreams s) `div` newstreams ∧
    _stride s' = (_stride s * _subStreams s) `div` newstreams ∧
    _subStreams s' = newstreams ∧
    _length s' * _subStreams s' < _length s * _subStreams s ∧
    (_length s * _subStreams s ≤ _stride s' * _subStreams s' →
     ∀ k, 0 ≤ k < _length s' * _subStreams s' → element s' k = element s k).
Proof.
  intros Hwf Hm Hu Hndiv.
  destruct (Collapse_spec s newstreams interleave Hwf Hm Hu)
    as (s' & Hc & Hs & Hl & Hn & _ & _ & _ & _ & Hel).
  exists s'. split_and!; try done.
  - rewrite Hl, Hn.
    destruct (div_mod_eq (_length s * _subStreams s) newstreams) as [Hd Hr]; [lia|].
    assert ((_length s * _subStreams s) `mod` newstreams ≠ 0).
    { intros H0. apply Hndiv. apply Z.mod_divide; [lia|done]. }
    lia.
  - rewrite Hs, Hl, Hn. exact Hel.
Qed.

(** C9, where the view offsets fit 32 bits: after every call that returned
    (the constructor, [Upload], [Download], [Collapse]), with any writes
    of host elements and any kernel writes to the device storage in
    between, if [(subStreams - 1) * stride] of the buffer is below [2^32],
    then for every [i] in [0, subStreams) the host view [i] points at
    [hostBase + i * stride] and the device view [i] at
    [deviceBase + i * stride]. *)
Theorem views_after_completed d s :
  completed d s → (_subStreams s - 1) * _stride s < UINT_MODULUS → views_ok s.
Proof.
  induction 1 as [len ss name s Hc|c s s' Hcomp IH Hp
                 |j i v s s' Hcomp IH Hp|index v s s' Hcomp IH Hp
                 |x v s s' Hcomp IH Hp]; intros Hext.
  - apply construct_views in Hc as (Hn & Hs & Hv).
    intros j Hj. rewrite Hn in Hj. destruct (Hv j Hj) as [-> ->].
    assert (0 ≤ _stride s).
    { rewrite Hs. apply Z.land_nonneg. right. lia. }
    rewrite wmul_small; [done|]. rewrite Hn in Hext. nia.
  - destruct c as [| |m il]; cbn in Hp.
    + pose proof (Upload_layout d s s' Hp) as Hlay.
      apply (views_ok_layout s s' Hlay). apply IH.
      destruct Hlay as (_ & <- & <- & _). done.
    + pose proof (Download_layout d s s' Hp) as Hlay.
      apply (views_ok_layout s s' Hlay). apply IH.
      destruct Hlay as (_ & <- & <- & _). done.
    + by apply Collapse_views in Hp as (_ & _ & Hv).
  - pose proof (SysStream_set_layout s j i v s' Hp) as Hlay.
    apply (views_ok_layout s s' Hlay). apply IH.
    destruct Hlay as (_ & <- & <- & _). done.
  - pose proof (index_set_layout s index v s' Hp) as Hlay.
    apply (views_ok_layout s s' Hlay). apply IH.
    destruct Hlay as (_ & <- & <- & _). done.
  - pose proof (device_set_layout s x v s' Hp) as Hlay.
    apply (views_ok_layout s s' Hlay). apply IH.
    destruct Hlay as (_ & <- & <- & _). done.
Qed.

(** C10, for well-formed buffers and the reshapes the view tables have
    room for: when [newstreams], between 1 and the number of entries of
    the view tables, divides both [length * subStreams] and
    [stride * subStreams], [Collapse] returns with
    [stride * subStreams] unchanged; the index at which the element [k] of
    the traversal is written to the scratch array (the counters [stream]
    and [pos] are then [k mod newstreams] and [k / newstreams]), the index
    read back for position [i] of new sub-stream [j], and the cell of the
    host storage written for it all lie in [0, stride * subStreams). *)
Theorem Collapse_capacity s newstreams interleave :
  wf s → 1 ≤ newstreams ≤ capacity s → newstreams < UINT_MODULUS →
  (newstreams | _length s * _subStreams s) →
  (newstreams | _stride s * _subStreams s) →
  let newstride := (_stride s * _subStreams s) `div` newstreams in
  let newlength := (_length s * _subStreams s) `div` newstreams in
  ∃ s', Collapse newstreams interleave s = Returned s' ∧
    _stride s' * _subStreams s' = _stride s * _subStreams s ∧
    (∀ k, 0 ≤ k < _length s * _subStreams s →
       0 ≤ temp_index newstride (k `mod` newstreams) (k `div` newstreams)
         < _stride s * _subStreams s) ∧
    (∀ i j, 0 ≤ i < newlength → 0 ≤ j < newstreams →
       0 ≤ temp_index newstride j i < _stride s * _subStreams s ∧
       ∃ p, sys_view s' j = Some p ∧ 0 ≤ p + i < _stride s * _subStreams s).
Proof.
  intros Hwf Hm Hu HdivL HdivS newstride newlength.
  pose proof Hwf as [HLS HN _ Hext _ _ _].
  destruct (Collapse_divisible s newstreams interleave Hwf Hm Hu HdivL)
    as (s' & Hc & Hs & Hl & Hn & _ & Hwf' & Hcount & _).
  fold newstride in Hs. fold newlength in Hl.
  pose proof (divide_div_mul _ newstreams ltac:(lia) HdivS) as HexS.
  pose proof (divide_div_mul _ newstreams ltac:(lia) HdivL) as HexL.
  fold newstride in HexS. fold newlength in HexL.
  set (W := _stride s * _subStreams s) in *.
  set (LN := _length s * _subStreams s) in *.
  assert (HLN : 0 ≤ LN ≤ W) by (unfold LN, W; nia).
  assert (Hns0 : 0 ≤ newstride) by (apply Z.div_pos; lia).
  assert (Hnlns : newlength ≤ newstride) by (apply Z.div_le_mono; lia).
  assert (Htemp : ∀ r q, 0 ≤ r < newstreams → 0 ≤ q < newstride →
            temp_index newstride r q = r * newstride + q ∧ 0 ≤ r * newstride + q < W).
  { intros r q Hr Hq. assert (0 ≤ r * newstride + q < W) by nia.
    split; [|done]. unfold temp_index.
    rewrite (wmul_small r) by nia. by rewrite wadd_small by lia. }
  exists s'. split_and!; [done|by rewrite Hs, Hn| |].
  - intros k Hk.
    destruct (div_mod_eq k newstreams) as [Hkd Hkr]; [lia|].
    destruct (div_nonneg k newstreams) as [Hq0 _]; [lia..|].
    destruct (Htemp (k `mod` newstreams) (k `div` newstreams)) as [-> ?]; [lia| |done].
    split; [done|]. apply div_lt_of_lt; [lia|]. nia.
  - intros i j Hi Hj. destruct (Htemp j i) as [-> Hb]; [lia..|].
    split; [done|]. exists (j * newstride).
    destruct (wf_views s' Hwf' j) as [-> _]; [lia|]. by rewrite Hs.
Qed.

End Claims.

(** * The claims at concrete buffers *)

(** ** C1 *)

Lemma Collapse_example_witness :
  ∃ s', Collapse 1 1 example_20x2 = Returned s' ∧
    _stride s' = 64 ∧ _length s' = 40 ∧ _subStreams s' = 1 ∧
    substream s' 0
    = mjoin ((λ i, [Some (Some (float_of_Z i)); Some (Some (float_of_Z (100 + i)))])
               <$> seqZ 0 20).
Proof.
  apply (Collapse_example float_of_Z example_20x2).
  - apply wfb_sound. vm_compute. reflexivity.
  - vm_compute. reflexivity.
  - vm_compute. reflexivity.
  - vm_compute. reflexivity.
  - vm_compute. reflexivity.
  - vm_compute. reflexivity.
Defined.

(** ** C2 *)

Lemma Collapse_conserves_witness :
  ∃ s', Collapse 1 1 example_20x2 = Returned s' ∧
    _subStreams s' = 1 ∧
    _length s' = (_length example_20x2 * _subStreams example_20x2) `div` 1 ∧
    contents s' ≡ₚ contents example_20x2.
Proof.
  apply (Collapse_conserves example_20x2 1 1).
  - apply wfb_sound. vm_compute. reflexivity.
  - vm_compute. split; discriminate.
  - vm_compute. reflexivity.
  - exists 40. vm_compute. reflexivity.
Defined.

(** C2 as stated fails: the element count 2 of a buffer constructed with
    one sub-stream of length 2 is a multiple of 2, but its view tables have
    one entry, and [Collapse(2)] assigns a second one. *)
Lemma Collapse_conserves_counterexample :
  wf (fresh 2 1) ∧
  (2 | _length (fresh 2 1) * _subStreams (fresh 2 1)) ∧
  capacity (fresh 2 1) = 1 ∧
  Collapse 2 1 (fresh 2 1) = Undefined.
Proof.
  split_and!.
  - apply wfb_sound. vm_compute. reflexivity.
  - exists 1. vm_compute. reflexivity.
  - vm_compute. reflexivity.
  - vm_compute. reflexivity.
Qed.

(** ** C3 *)

Lemma Collapse_round_trip_witness :
  ∃ s1 s2, Collapse 1 1 example_20x2 = Returned s1 ∧
    Collapse (_subStreams example_20x2) 1 s1 = Returned s2 ∧
    _length s2 = _length example_20x2 ∧
    _subStreams s2 = _subStreams example_20x2 ∧
    ∀ j, 0 ≤ j < _subStreams example_20x2 →
      substream s2 j = substream example_20x2 j.
Proof.
  apply (Collapse_round_trip example_20x2 1 1 1).
  - apply wfb_sound. vm_compute. reflexivity.
  - vm_compute. discriminate.
  - vm_compute. split; discriminate.
  - vm_compute. reflexivity.
  - exists 40. vm_compute. reflexivity.
Defined.

(** C3 as stated fails: from 2 sub-streams of length 4 to 4 sub-streams
    and back divides evenly both ways, but the view tables of the buffer
    have 2 entries and the first [Collapse] assigns 4. *)
Lemma Collapse_round_trip_counterexample :
  wf (fresh 4 2) ∧ _subStreams (fresh 4 2) = 2 ∧
  (4 | _length (fresh 4 2) * _subStreams (fresh 4 2)) ∧
  (2 | _length (fresh 4 2) * _subStreams (fresh 4 2)) ∧
  Collapse 4 1 (fresh 4 2) = Undefined.
Proof.
  split_and!.
  - apply wfb_sound. vm_compute. reflexivity.
  - vm_compute. reflexivity.
  - exists 2. vm_compute. reflexivity.
  - exists 4. vm_compute. reflexivity.
  - vm_compute. reflexivity.
Qed.

(** ** C4 *)

Lemma construct_failure_exits_witness :
  let error := cudaGetErrorString runtime_oom
      (cudaMalloc runtime_oom (wmul (Z.land (wadd 20 0xf) 0xfffffff0) 2 * sizeof)) in
  ∃ self out,
    construct (T:=float) runtime_oom 20 2 "posq" = Exited (-1) out self ∧
    out = printf_s_s ("posq" +:+ ": cudaMalloc in CUDAStream::Allocate failed") error ∧
    (c_str "posq" = "posq" →
     out = "posq" +:+ ": cudaMalloc in CUDAStream::Allocate failed" +:+ " "
             +:+ c_str error +:+ newline) ∧
    (c_str "posq" ≠ "posq" → out = c_str "posq" +:+ " " +:+ c_str error +:+ newline) ∧
    _pSysStream self = Some (new_array 2) ∧
    _pDevStream self = Some (new_array 2) ∧
    _pSysData self = Some (new_array (wmul 2 (Z.land (wadd 20 0xf) 0xfffffff0))) ∧
    _pDevData self = None.
Proof.
  apply (construct_failure_exits (T:=float) runtime_oom 20 2 "posq").
  vm_compute. discriminate.
Defined.

(** A label that holds a NUL byte is printed up to that byte, and the
    text that follows it in the message is not printed at all. *)
Lemma construct_failure_nul_label :
  ∃ self,
    construct (T:=float) runtime_oom 20 2 ("po" +:+ String "000" "sq")
    = Exited (-1) ("po out of memory" +:+ newline) self.
Proof. eexists. vm_compute. reflexivity. Qed.

(** C4 as stated fails: on a runtime whose allocator is out of memory the
    constructor does not report to its caller; the process is left with
    status -1 while the host storage of 64 elements and both view tables
    are still allocated. *)
Lemma construct_failure_counterexample :
  ∃ self,
    construct (T:=float) runtime_oom 20 2 "posq"
    = Exited (-1)
        ("posq: cudaMalloc in CUDAStream::Allocate failed out of memory" +:+ newline)
        self ∧
    _pSysData self = Some (replicate 64 None) ∧
    _pSysStream self = Some [None; None] ∧
    _pDevStream self = Some [None; None].
Proof. eexists. split_and!; vm_compute; reflexivity. Qed.

(** ** C5 *)

Lemma construct_stride_extent_witness :
  ∃ s host dev, construct (T:=float) runtime_ok 20 2 "posq" = Returned s ∧
    _length s = 20 ∧ _subStreams s = 2 ∧
    _stride s = ceil_div 20 16 * 16 ∧
    _pSysData s = Some host ∧ Z.of_nat (length host) = _stride s * _subStreams s ∧
    _pDevData s = Some dev ∧ Z.of_nat (length dev) = _stride s * _subStreams s.
Proof.
  apply (construct_stride_extent runtime_ok 20 2 "posq").
  - vm_compute. discriminate.
  - vm_compute. reflexivity.
  - vm_compute. discriminate.
  - vm_compute. reflexivity.
  - vm_compute. reflexivity.
Defined.

(** C5 as stated fails at the edge of [unsigned int]: for the length
    [2^32 - 1] the sum [length + 0xf] wraps and the stride is 0, not
    [2^32]; for the length [2^31] and 2 sub-streams the product
    [stride * subStreams] wraps and both storages get 0 elements, not
    [2^32]. *)
Lemma construct_stride_extent_counterexample :
  (∃ s, construct (T:=float) runtime_ok 4294967295 1 "s" = Returned s ∧
        _stride s = 0 ∧ ceil_div 4294967295 16 * 16 = 4294967296) ∧
  (∃ s, construct (T:=float) runtime_ok 2147483648 2 "s" = Returned s ∧
        _stride s = 2147483648 ∧ _subStreams s = 2 ∧
        _pSysData s = Some [] ∧ _pDevData s = Some []).
Proof. split; eexists; split_and!; vm_compute; reflexivity. Qed.

(** ** C7 *)

(** The host copy of sub-stream 0 is overwritten with [500..519] between
    the two calls; the [Download] brings [0..19] back. *)
Lemma Upload_Download_roundtrip_witness :
  let s := example_20x2 in
  let s1 := returned unallocated (Upload runtime_ok s) in
  let t := returned unallocated (populate float_of_Z 0 500 20 s1) in
  let s2 := returned unallocated (Download runtime_ok t) in
  (∀ x, 0 ≤ x < wmul (_stride s) (_subStreams s) → host_get s2 x = host_get s x) ∧
  (∀ x, wmul (_stride s) (_subStreams s) ≤ x → host_get s2 x = host_get t x) ∧
  (_pSysData t = _pSysData s1 → _pSysData s2 = _pSysData s) ∧
  (t = s1 → s2 = s1).
Proof.
  intros s s1 t s2.
  apply (Upload_Download_roundtrip runtime_ok s s1 t s2); vm_compute; reflexivity.
Defined.

(** In that run the host storage differs from the original just before
    the [Download] and equals it afterwards. *)
Lemma Upload_Download_roundtrip_example :
  let s := example_20x2 in
  let s1 := returned unallocated (Upload runtime_ok s) in
  let t := returned unallocated (populate float_of_Z 0 500 20 s1) in
  let s2 := returned unallocated (Download runtime_ok t) in
  host_get s 3 = Some (Some (float_of_Z 3)) ∧
  host_get t 3 = Some (Some (float_of_Z 503)) ∧
  host_get s2 3 = Some (Some (float_of_Z 3)) ∧
  _pSysData s2 = _pSysData s.
Proof. split_and!; vm_compute; reflexivity. Qed.

(** ** C8 *)

Lemma Collapse_truncates_witness :
  ∃ s', Collapse 2 1 (fresh 1 3) = Returned s' ∧
    _length s' = (_length (fresh 1 3) * _subStreams (fresh 1 3)) `div` 2 ∧
    _stride s' = (_stride (fresh 1 3) * _subStreams (fresh 1 3)) `div` 2 ∧
    _subStreams s' = 2 ∧
    _length s' * _subStreams s' < _length (fresh 1 3) * _subStreams (fresh 1 3) ∧
    (_length (fresh 1 3) * _subStreams (fresh 1 3) ≤ _stride s' * _subStreams s' →
     ∀ k, 0 ≤ k < _length s' * _subStreams s' → element s' k = element (fresh 1 3) k).
Proof.
  apply (Collapse_truncates (fresh 1 3) 2 1).
  - apply wfb_sound. vm_compute. reflexivity.
  - vm_compute. split; discriminate.
  - vm_compute. reflexivity.
  - intros [z Hz].
    change (_length (fresh 1 3) * _subStreams (fresh 1 3)) with 3 in Hz. lia.
Defined.

(** C8 as stated fails: 3 sub-streams of length 1 hold 3 elements, which
    2 does not divide; [Collapse(2)] returns a buffer of 2 sub-streams of
    length 1 and stride 24, and nothing tells the caller that an element
    was dropped. *)
Lemma Collapse_truncates_counterexample :
  ¬ (2 | _length (fresh 1 3) * _subStreams (fresh 1 3)) ∧
  ∃ s', Collapse 2 1 (fresh 1 3) = Returned s' ∧
    _length s' = 1 ∧ _subStreams s' = 2 ∧ _stride s' = 24.
Proof.
  split.
  - intros [z Hz].
    change (_length (fresh 1 3) * _subStreams (fresh 1 3)) with 3 in Hz. lia.
  - eexists. split_and!; vm_compute; reflexivity.
Qed.

(** ** C9 *)

Lemma example_20x2_completed : completed runtime_ok example_20x2.
Proof.
  set (s0 := returned unallocated (construct (T:=float) runtime_ok 20 2 "example")).
  set (s1 := returned unallocated (populate float_of_Z 0 0 20 s0)).
  apply (populate_completed runtime_ok float_of_Z 1 100 20 s1); [|vm_compute; reflexivity].
  apply (populate_completed runtime_ok float_of_Z 0 0 20 s0); [|vm_compute; reflexivity].
  apply (completed_construct runtime_ok 20 2 "example"). vm_compute. reflexivity.
Qed.

(** The populated buffer of the example is uploaded, a kernel writes a
    device cell, the buffer is downloaded, an element is assigned through
    [operator[]], and the buffer is collapsed to one sub-stream. *)
Lemma views_after_completed_witness :
  let s1 := returned unallocated (Upload runtime_ok example_20x2) in
  let s2 := returned unallocated (device_set 35 (Some (float_of_Z 7)) s1) in
  let s3 := returned unallocated (Download runtime_ok s2) in
  let s4 := returned unallocated (index_set 3 (Some (float_of_Z 9)) s3) in
  let s5 := returned unallocated (Collapse 1 1 s4) in
  views_ok s5.
Proof.
  intros s1 s2 s3 s4 s5.
  apply (views_after_completed runtime_ok).
  - apply (completed_call runtime_ok (CallCollapse 1 1) s4); [|vm_compute; reflexivity].
    apply (completed_index_write runtime_ok 3 (Some (float_of_Z 9)) s3);
      [|vm_compute; reflexivity].
    apply (completed_call runtime_ok CallDownload s2); [|vm_compute; reflexivity].
    apply (completed_kernel_write runtime_ok 35 (Some (float_of_Z 7)) s1);
      [|vm_compute; reflexivity].
    apply (completed_call runtime_ok CallUpload example_20x2); [|vm_compute; reflexivity].
    apply example_20x2_completed.
  - vm_compute. reflexivity.
Defined.

(** C9 as stated fails at the edge of [unsigned int]: the constructor of a
    buffer of 4 sub-streams of length [2^31] returns (the extent
    [4 * 2^31] wraps to 0 elements), and view 2 of either table points at
    [base + 0], the product [2 * stride] having wrapped, not at
    [base + 2 * stride]. *)
Lemma views_after_completed_counterexample :
  completed runtime_ok (fresh 2147483648 4) ∧
  _subStreams (fresh 2147483648 4) = 4 ∧
  _stride (fresh 2147483648 4) = 2147483648 ∧
  sys_view (fresh 2147483648 4) 2 = Some 0 ∧
  dev_view (fresh 2147483648 4) 2 = Some 0 ∧
  ¬ views_ok (fresh 2147483648 4).
Proof.
  split_and!.
  - apply (completed_construct runtime_ok 2147483648 4 "s"). vm_compute. reflexivity.
  - vm_compute. reflexivity.
  - vm_compute. reflexivity.
  - vm_compute. reflexivity.
  - vm_compute. reflexivity.
  - intros Hv. unfold views_ok in Hv. destruct (Hv 2) as [Hs _].
    + vm_compute. split; [discriminate|reflexivity].
    + vm_compute in Hs. discriminate.
Qed.

(** ** C10 *)

Lemma Collapse_capacity_witness :
  let s := fresh 16 2 in
  let newstride := (_stride s * _subStreams s) `div` 2 in
  let newlength := (_length s * _subStreams s) `div` 2 in
  ∃ s', Collapse 2 1 s = Returned s' ∧
    _stride s' * _subStreams s' = _stride s * _subStreams s ∧
    (∀ k, 0 ≤ k < _length s * _subStreams s →
       0 ≤ temp_index newstride (k `mod` 2) (k `div` 2) < _stride s * _subStreams s) ∧
    (∀ i j, 0 ≤ i < newlength → 0 ≤ j < 2 →
       0 ≤ temp_index newstride j i < _stride s * _subStreams s ∧
       ∃ p, sys_view s' j = Some p ∧ 0 ≤ p + i < _stride s * _subStreams s).
Proof.
  apply (Collapse_capacity (fresh 16 2) 2 1).
  - apply wfb_sound. vm_compute. reflexivity.
  - vm_compute. split; discriminate.
  - vm_compute. reflexivity.
  - exists 16. vm_compute. reflexivity.
  - exists 16. vm_compute. reflexivity.
Defined.

(** C10 as stated fails in two ways.  A buffer constructed with 2
    sub-streams of length 16 has view tables of 2 entries, and
    [Collapse(4)], although 4 divides both 32 and 32, assigns entries 2 and
    3.  A buffer constructed with the length [2^32 - 8] has the stride 0
    and no storage at all, and the first iteration of [Collapse(1)] reads
    and writes element 0 of arrays of 0 elements. *)
Lemma Collapse_capacity_counterexample :
  ((4 | _length (fresh 16 2) * _subStreams (fresh 16 2)) ∧
   (4 | _stride (fresh 16 2) * _subStreams (fresh 16 2)) ∧
   capacity (fresh 16 2) = 2 ∧
   Collapse 4 1 (fresh 16 2) = Undefined) ∧
  (_length (fresh 4294967288 1) = 4294967288 ∧
   _stride (fresh 4294967288 1) = 0 ∧
   _pSysData (fresh 4294967288 1) = Some [] ∧
   Collapse 1 1 (fresh 4294967288 1) = Undefined).
Proof.
  split; split_and!.
  - exists 8. vm_compute. reflexivity.
  - exists 8. vm_compute. reflexivity.
  - vm_compute. reflexivity.
  - vm_compute. reflexivity.
  - vm_compute. reflexivity.
  - vm_compute. reflexivity.
  - vm_compute. reflexivity.
  - unfold Collapse. rewrite bool_decide_false by done.
    rewrite (for_upto_first_undefined (St:=list (option float) * Z * Z)); [done| |].
    + vm_compute. reflexivity.
    + vm_compute. reflexivity.
Qed.

(** * Further properties of the buffer *)

(** ** What the view loop leaves alone *)

Section ViewFrame.
Context {T : Type}.
Implicit Types (s : CUDAStream T).

Lemma capacity_nonneg s : 0 ≤ capacity s.
Proof. unfold capacity. destruct (_pSysStream s), (_pDevStream s); lia. Qed.

Lemma point_views_frame stride i s s' :
  0 ≤ i → point_views stride i s = Returned s' →
  i < capacity s ∧ capacity s' = capacity s ∧
  _name s' = _name s ∧ _pSysData s' = _pSysData s ∧ _pDevData s' = _pDevData s ∧
  ∀ j, j ≠ i → sys_view s' j = sys_view s j ∧ dev_view s' j = dev_view s j.
Proof.
  intros Hi. unfold point_views, set_sys_view, set_dev_view.
  destruct (_pSysStream s) as [sys|] eqn:Hsys; [|done]. cbn.
  destruct (insertZ sys i _) as [sys'|] eqn:Hi1; [|done]. cbn.
  destruct (_pDevStream s) as [dev|] eqn:Hdev; [|done]. cbn.
  destruct (insertZ dev i _) as [dev'|] eqn:Hi2; [|done]. cbn.
  intros [= <-].
  apply insertZ_inv in Hi1 as [Hb1 ->]. apply insertZ_inv in Hi2 as [Hb2 ->].
  unfold capacity, sys_view, dev_view. cbn. rewrite Hsys, Hdev, !length_insert. cbn.
  split_and!; try done; [lia|].
  intros j Hj. by rewrite !lookupZ_insert_ne by lia.
Qed.

(** The loop over the views [0, n) returns only if both tables have [n]
    entries, and touches nothing but those entries. *)
Lemma point_views_loop_frame stride n s s' :
  0 ≤ n → for_upto n (point_views stride) s = Returned s' →
  n ≤ capacity s ∧ capacity s' = capacity s ∧
  _name s' = _name s ∧ _pSysData s' = _pSysData s ∧ _pDevData s' = _pDevData s ∧
  ∀ j, n ≤ j → sys_view s' j = sys_view s j ∧ dev_view s' j = dev_view s j.
Proof.
  intros Hn Hl. unfold for_upto in Hl.
  apply (for_loop_post (λ i st, i ≤ capacity s ∧ capacity st = capacity s ∧
           _name st = _name s ∧ _pSysData st = _pSysData s ∧
           _pDevData st = _pDevData s ∧
           ∀ j, i ≤ j → sys_view st j = sys_view s j ∧ dev_view st j = dev_view s j))
    in Hl.
  - by replace (0 + Z.of_nat (Z.to_nat n)) with n in Hl by lia.
  - intros i st st' Hi (Hic & Hc & Hnm & Hh & Hd & Hv) Hb.
    destruct (point_views_frame stride i st st') as (Hlt & Hc' & Hnm' & Hh' & Hd' & Hv');
      [lia|done|].
    split_and!; try congruence; [lia|].
    intros j Hj. destruct (Hv' j) as [-> ->]; [lia|]. apply Hv. lia.
  - pose proof (capacity_nonneg s). split_and!; try done.
Qed.

End ViewFrame.

(** ** Construction *)

Section MoreConstruction.
Context {T : Type} `{!Sized T}.
Implicit Types (s : CUDAStream T) (d : Device).

(** X1: Inside the range of [unsigned int], a construction on which
    [cudaMalloc] succeeds returns a well-formed buffer whose view tables
    have exactly [subStreams] entries and whose host and device cells are
    all indeterminate: nothing is initialised. *)
Theorem construct_well_formed d len ss name :
  0 ≤ len → len + 0xf < UINT_MODULUS → 0 ≤ ss < UINT_MODULUS →
  16 * ((len + 15) `div` 16) * ss < UINT_MODULUS →
  cudaMalloc d (16 * ((len + 15) `div` 16) * ss * sizeof) = cudaSuccess →
  ∃ s, construct d len ss name = Returned s ∧
    wf s ∧ capacity s = ss ∧ _name s = name ∧
    ∀ j i, 0 ≤ j < ss → 0 ≤ i < _stride s →
      SysStream_get s j i = Some None ∧ DevStream_get s j i = Some None.
Proof.
  intros Hlen Hfit Hss Hext Hok.
  assert (Hst : Z.land (wadd len 0xf) 0xfffffff0 = 16 * ((len + 15) `div` 16))
    by (by apply stride_round_up).
  assert (Hq : 0 ≤ 16 * ((len + 15) `div` 16)).
  { assert (0 ≤ (len + 15) `div` 16) by (apply Z.div_pos; lia). lia. }
  assert (Hw : wmul (16 * ((len + 15) `div` 16)) ss = 16 * ((len + 15) `div` 16) * ss)
    by (apply wmul_small; nia).
  destruct (construct_returns d len ss name) as (s & Hc & Hl & Hn & Hs & Hh & Hd & Hcap & Hv);
    [lia|by rewrite Hst, Hw|].
  destruct (construct_wf d len ss name s) as [Hwf _]; try done.
  exists s. split_and!; try done.
  - revert Hc. unfold construct, Allocate, RTERROR. cbn.
    case_bool_decide; [done|].
    intros (_ & _ & Hnm & _)%point_views_loop_frame; [done|lia].
  - intros j i Hj Hi. destruct (Hv j Hj) as [Hvs Hvd].
    rewrite Hs, Hst in Hvs, Hvd, Hh, Hd, Hi.
    rewrite wmul_small in Hvs, Hvd by nia.
    rewrite wmul_comm, Hw in Hh. rewrite Hw in Hd.
    unfold SysStream_get, DevStream_get. rewrite Hvs, Hvd, Hh, Hd. cbn.
    unfold lookupZ, new_array. rewrite bool_decide_true by nia.
    rewrite lookup_replicate_2 by nia. done.
Qed.

End MoreConstruction.

(** ** The constructors taking [int] *)

Section MoreOverloads.
Context {T : Type} `{!Sized T}.
Implicit Types (s : CUDAStream T) (d : Device).

Lemma int_add_in_range a b :
  INT_MIN ≤ a + b ≤ INT_MAX → int_add a b = Some (a + b).
Proof. intros H. unfold int_add. by rewrite bool_decide_true. Qed.

Lemma to_unsigned_add_0xf len : to_unsigned (len + 0xf) = wadd (to_unsigned len) 0xf.
Proof.
  unfold to_unsigned, wadd, UINT_MODULUS. by rewrite Z.add_mod_idemp_l by lia.
Qed.

Lemma wmul_0_l b : wmul 0 b = 0.
Proof. reflexivity. Qed.

Lemma wmul_0_r a : wmul a 0 = 0.
Proof. unfold wmul. by rewrite Z.mul_0_r. Qed.

Lemma construct_int_uint_unsigned d len ss name :
  INT_MIN ≤ len ≤ INT_MAX - 0xf →
  construct_int_uint (T:=T) d len ss name = construct d (to_unsigned len) ss name.
Proof.
  intros Hlen. unfold construct_int_uint, construct.
  rewrite int_add_in_range by (unfold INT_MIN, INT_MAX in *; lia). cbn.
  by rewrite to_unsigned_add_0xf.
Qed.

(** X2: The four constructors build the same buffer: an [int] argument counts
    as the [unsigned int] it converts to, as long as [length + 0xf] does
    not leave the range of [int]. *)
Theorem construct_overloads_agree d len ss name :
  INT_MIN ≤ len ≤ INT_MAX - 0xf →
  construct_int_uint (T:=T) d len ss name = construct d (to_unsigned len) ss name ∧
  construct_int_int (T:=T) d len ss name
    = construct d (to_unsigned len) (to_unsigned ss) name ∧
  construct_uint_int (T:=T) d len ss name = construct d len (to_unsigned ss) name.
Proof.
  intros Hlen. split; [by apply construct_int_uint_unsigned|].
  unfold construct_int_int, construct_uint_int, construct.
  rewrite int_add_in_range by (unfold INT_MIN, INT_MAX in *; lia). cbn.
  by rewrite to_unsigned_add_0xf.
Qed.

(** X3: Past [INT_MAX - 0xf] the [int] sum [length + 0xf] overflows: the two
    constructors taking an [int] length have no defined behaviour there,
    while the ones taking an [unsigned int] length round the same number up
    to the next multiple of 16. *)
Theorem construct_int_length_overflow d len ss name :
  INT_MAX - 0xf < len ≤ INT_MAX →
  construct_int_uint (T:=T) d len ss name = Undefined ∧
  construct_int_int (T:=T) d len ss name = Undefined ∧
  Z.land (wadd len 0xf) 0xfffffff0 = 16 * ((len + 15) `div` 16).
Proof.
  intros Hlen. unfold construct_int_uint, construct_int_int, int_add.
  rewrite bool_decide_false by (unfold INT_MIN, INT_MAX in *; lia). cbn.
  split_and!; try done.
  apply stride_round_up; unfold INT_MAX, UINT_MODULUS in *; lia.
Qed.

(** X4: A negative length between -15 and -1 is not refused: when [cudaMalloc]
    accepts the empty request, the constructor returns a buffer whose
    length is [2^32 + length], whose stride is 0 and whose storages are
    empty, so that not even its first element exists. *)
Theorem construct_int_negative_length d len ss name :
  -15 ≤ len < 0 → 0 ≤ ss →
  cudaMalloc d (0 * sizeof) = cudaSuccess →
  ∃ s, construct_int_uint d len ss name = Returned s ∧
    _length s = UINT_MODULUS + len ∧ _stride s = 0 ∧ _subStreams s = ss ∧
    _pSysData s = Some [] ∧ _pDevData s = Some [] ∧
    ∀ j, SysStream_get s j 0 = None.
Proof.
  intros Hlen Hss Hok.
  rewrite construct_int_uint_unsigned by (unfold INT_MIN, INT_MAX; lia).
  assert (Hu : to_unsigned len = UINT_MODULUS + len).
  { unfold to_unsigned, UINT_MODULUS.
    symmetry. apply (Z.mod_unique len (2 ^ 32) (-1)); lia. }
  assert (Hst : Z.land (wadd (to_unsigned len) 0xf) 0xfffffff0 = 0).
  { rewrite <- to_unsigned_add_0xf. unfold to_unsigned.
    rewrite Z.mod_small by (unfold UINT_MODULUS; lia).
    rewrite land_fffffff0 by (unfold UINT_MODULUS; lia).
    rewrite Z.div_small by lia. done. }
  destruct (construct_returns d (to_unsigned len) ss name)
    as (s & Hc & Hl & Hn & Hs & Hh & Hd & _); [done| |].
  { by rewrite Hst, wmul_0_l. }
  rewrite Hst in Hs. rewrite Hs in Hh, Hd.
  rewrite wmul_0_r in Hh. rewrite wmul_0_l in Hd.
  exists s. split_and!; try done; [congruence|].
  intros j. unfold SysStream_get. destruct (sys_view s j) as [p|]; [|done]. cbn.
  rewrite Hh. cbn. unfold lookupZ. case_bool_decide; [|done]. done.
Qed.

End MoreOverloads.

(** ** When Collapse returns, and what it leaves alone *)

Section CollapseOutcome.
Context {T : Type}.
Implicit Types (s : CUDAStream T).


Lemma defined_bind_never_exits {X A} (o : option X) (k : X → outcome T A) :
  (∀ x a b c, k x ≠ Exited a b c) → ∀ a b c, (defined o ≫= k) ≠ Exited a b c.
Proof. intros Hk a b c. destruct o as [x|]; cbn; [apply Hk|done]. Qed.





Lemma SysStream_set_frame s j i v s' :
  SysStream_set j i v s = Returned s' →
  _pDevData s' = _pDevData s ∧ _name s' = _name s ∧
  _pSysStream s' = _pSysStream s ∧ _pDevStream s' = _pDevStream s ∧
  length <$> _pSysData s' = length <$> _pSysData s.
Proof.
  unfold SysStream_set.
  destruct (sys_view s j) as [p|]; [|done]. cbn.
  destruct (_pSysData s) as [host|]; [|done]. cbn.
  destruct (insertZ host (p + i) v) as [host'|] eqn:Hi; [|done]. cbn.
  intros [= <-]. apply insertZ_inv in Hi as [_ ->]. cbn.
  by rewrite length_insert.
Qed.

Lemma scatter_loop_frame (pTemp : list (option T)) ns nl m s s' :
  for_upto nl (λ i, for_upto m (λ j, scatter pTemp ns i j)) s = Returned s' →
  _pDevData s' = _pDevData s ∧ _name s' = _name s ∧
  _pSysStream s' = _pSysStream s ∧ _pDevStream s' = _pDevStream s ∧
  length <$> _pSysData s' = length <$> _pSysData s.
Proof.
  unfold for_upto at 1.
  apply (for_loop_preserves (λ st, _pDevData st = _pDevData s ∧ _name st = _name s ∧
           _pSysStream st = _pSysStream s ∧ _pDevStream st = _pDevStream s ∧
           length <$> _pSysData st = length <$> _pSysData s)); [|done].
  intros i st st' Hst. unfold for_upto.
  apply (for_loop_preserves (λ st, _pDevData st = _pDevData s ∧ _name st = _name s ∧
           _pSysStream st = _pSysStream s ∧ _pDevStream st = _pDevStream s ∧
           length <$> _pSysData st = length <$> _pSysData s)); [|done].
  intros j st1 st2 (H1 & H2 & H3 & H4 & H5). unfold scatter.
  destruct (lookupZ pTemp _) as [v|]; [|done]. cbn.
  intros (? & ? & ? & ? & ?)%SysStream_set_frame. split_and!; congruence.
Qed.

(** X5: [Collapse] works on the host side only and on the views it re-points:
    whenever it returns, the device storage, the name, the size of the
    view tables and of the host storage are what they were, and so is
    every view from [newstreams] on, which still points into the old
    layout.  It returns only for a [newstreams] between 1 and the number
    of entries of the view tables. *)
Theorem Collapse_frame s newstreams interleave s' :
  0 ≤ newstreams → Collapse newstreams interleave s = Returned s' →
  1 ≤ newstreams ≤ capacity s ∧
  _pDevData s' = _pDevData s ∧ _name s' = _name s ∧
  capacity s' = capacity s ∧
  length <$> _pSysData s' = length <$> _pSysData s ∧
  ∀ j, newstreams ≤ j →
    sys_view s' j = sys_view s j ∧ dev_view s' j = dev_view s j.
Proof.
  intros Hm. unfold Collapse. case_bool_decide as Hm0; [done|].
  destruct (for_upto (_length s) _ _) as [[[pTemp stream] pos]| |]; [|done..]. cbn.
  destruct (for_upto newstreams _ s) as [s1| |] eqn:Hremap; [|done..]. cbn.
  destruct (for_upto _ _ s1) as [s2| |] eqn:Hscatter; [|done..]. cbn.
  intros [= <-].
  apply point_views_loop_frame in Hremap as (Hcap & Hc1 & Hnm1 & Hh1 & Hd1 & Hv1); [|done].
  apply scatter_loop_frame in Hscatter as (Hd2 & Hnm2 & Hsys2 & Hdev2 & Hlen2).
  cbn. split_and!; try congruence; try lia.
  - rewrite <- Hc1. unfold capacity. cbn. by rewrite Hsys2, Hdev2.
  - intros j Hj. destruct (Hv1 j Hj) as [<- <-].
    unfold sys_view, dev_view. cbn. by rewrite Hsys2, Hdev2.
Qed.


End CollapseOutcome.

(** ** Where Collapse puts the elements *)

Section CollapseLayout.
Context {T : Type}.
Implicit Types (s t : CUDAStream T).

Lemma substream_ext s t j :
  _length s = _length t →
  (∀ i, 0 ≤ i < _length s → SysStream_get s j i = SysStream_get t j i) →
  substream s j = substream t j.
Proof.
  intros Hl He. unfold substream. rewrite <- Hl.
  apply list_fmap_ext. intros n i [-> Hi]%lookup_seqZ. apply He. lia.
Qed.

Lemma substream_lookup s j i :
  0 ≤ i < _length s → substream s j !! Z.to_nat i = Some (SysStream_get s j i).
Proof.
  intros Hi. unfold substream. rewrite list_lookup_fmap.
  rewrite lookup_seqZ_lt by lia. cbn. do 3 f_equal. lia.
Qed.

(** Equal sub-streams give equal row-major sequences. *)
Lemma element_substreams s t k :
  0 ≤ _subStreams s →
  _length s = _length t → _subStreams s = _subStreams t →
  (∀ j, 0 ≤ j < _subStreams s → substream s j = substream t j) →
  0 ≤ k < _length s * _subStreams s → element s k = element t k.
Proof.
  intros HN0 Hl Hn Hsub Hk. unfold element. rewrite <- Hn.
  assert (HN : 0 < _subStreams s).
  { destruct (decide (_subStreams s = 0)) as [H0|H0]; [|lia].
    rewrite H0, Z.mul_0_r in Hk. lia. }
  destruct (div_mod_eq k (_subStreams s) HN) as [Hkd Hkr].
  destruct (div_nonneg k (_subStreams s)) as [Hq0 _]; [lia..|].
  assert (Hq : 0 ≤ k `div` _subStreams s < _length s).
  { split; [done|]. apply div_lt_of_lt; lia. }
  pose proof (substream_lookup s (k `mod` _subStreams s) _ Hq) as H1.
  pose proof (substream_lookup t (k `mod` _subStreams s) (k `div` _subStreams s)) as H2.
  rewrite <- Hl in H2. specialize (H2 Hq).
  rewrite Hsub in H1 by lia. congruence.
Qed.

(** X7: After a [Collapse] to [newstreams] sub-streams that divides the
    element count, position [i] of the new sub-stream [j] holds the element
    number [i * newstreams + j] of the old row-major order, that is
    position [(i * newstreams + j) / subStreams] of the old sub-stream
    [(i * newstreams + j) mod subStreams]. *)
Theorem Collapse_position s newstreams interleave :
  wf s → 1 ≤ newstreams ≤ capacity s → newstreams < UINT_MODULUS →
  (newstreams | _length s * _subStreams s) →
  ∃ s', Collapse newstreams interleave s = Returned s' ∧
    ∀ j i, 0 ≤ j < newstreams → 0 ≤ i < _length s' →
      SysStream_get s' j i
      = SysStream_get s ((i * newstreams + j) `mod` _subStreams s)
                        ((i * newstreams + j) `div` _subStreams s).
Proof.
  intros Hwf Hm Hu Hdiv.
  destruct (Collapse_divisible s newstreams interleave Hwf Hm Hu Hdiv)
    as (s' & Hc & _ & _ & Hn & _ & _ & Hcount & Hel).
  exists s'. split; [done|]. intros j i Hj Hi.
  rewrite <- Hn at 1. rewrite <- element_row_major by lia.
  rewrite Hel by (rewrite <- Hcount; nia). by rewrite Hn.
Qed.

(** X8: [Collapse()] with its default arguments interleaves: the one
    sub-stream left reads position 0 of every old sub-stream in turn, then
    position 1 of every old sub-stream, and so on; its length is
    [length * subStreams] and its stride [stride * subStreams]. *)
Theorem Collapse_to_one s interleave :
  wf s → 1 ≤ capacity s →
  ∃ s', Collapse 1 interleave s = Returned s' ∧
    _subStreams s' = 1 ∧
    _length s' = _length s * _subStreams s ∧
    _stride s' = _stride s * _subStreams s ∧
    substream s' 0
    = mjoin ((λ i, (λ j, SysStream_get s j i) <$> seqZ 0 (_subStreams s))
               <$> seqZ 0 (_length s)).
Proof.
  intros Hwf Hcap.
  destruct (Collapse_divisible s 1 interleave Hwf) as (s' & Hc & Hs & Hl & Hn & _ & _ & _ & Hel).
  { lia. } { unfold UINT_MODULUS. lia. } { apply Z.divide_1_l. }
  rewrite Z.div_1_r in Hs, Hl.
  exists s'. split_and!; try done.
  rewrite join_rows by apply Hwf.
  rewrite substream_element by lia. rewrite Hn, Hl.
  apply list_fmap_ext. intros n i [-> Hi]%lookup_seqZ.
  rewrite Z.mul_1_r, Z.add_0_r. by rewrite Hel by lia.
Qed.

(** X9: A [Collapse] to the number of sub-streams the buffer already has
    changes neither its shape nor what its sub-streams hold. *)
Theorem Collapse_same_count s interleave :
  wf s → 1 ≤ _subStreams s →
  ∃ s', Collapse (_subStreams s) interleave s = Returned s' ∧
    _length s' = _length s ∧ _stride s' = _stride s ∧
    _subStreams s' = _subStreams s ∧
    ∀ j, 0 ≤ j < _subStreams s → substream s' j = substream s j.
Proof.
  intros Hwf HN. pose proof Hwf as [_ [_ Hcap] Hu _ _ _ _].
  destruct (Collapse_divisible s (_subStreams s) interleave Hwf)
    as (s' & Hc & Hs & Hl & Hn & _ & _ & _ & Hel); [lia|done|apply Z.divide_factor_r|].
  rewrite Z.div_mul in Hs, Hl by lia.
  exists s'. split_and!; try done.
  intros j Hj. rewrite !substream_element by (rewrite ?Hn; lia).
  rewrite Hl, Hn. apply list_fmap_ext. intros n i [-> Hi]%lookup_seqZ.
  apply Hel. nia.
Qed.

(** X10: Two reshapes in a row give the sub-streams of the second one alone:
    when [m1] and [m2] both divide the element count, [Collapse(m1)]
    followed by [Collapse(m2)] and [Collapse(m2)] by itself end with the
    same length and the same content in every sub-stream. *)
Theorem Collapse_compose s m1 m2 il1 il2 il :
  wf s → 1 ≤ m1 ≤ capacity s → m1 < UINT_MODULUS →
  1 ≤ m2 ≤ capacity s → m2 < UINT_MODULUS →
  (m1 | _length s * _subStreams s) → (m2 | _length s * _subStreams s) →
  ∃ s1 s2 s', Collapse m1 il1 s = Returned s1 ∧ Collapse m2 il2 s1 = Returned s2 ∧
    Collapse m2 il s = Returned s' ∧
    _length s2 = _length s' ∧ _subStreams s2 = _subStreams s' ∧
    ∀ j, 0 ≤ j < m2 → substream s2 j = substream s' j.
Proof.
  intros Hwf Hm1 Hu1 Hm2 Hu2 Hd1 Hd2.
  destruct (Collapse_divisible s m1 il1 Hwf Hm1 Hu1 Hd1)
    as (s1 & Hc1 & _ & _ & _ & Hcap1 & Hwf1 & Hcount1 & Hel1).
  destruct (Collapse_divisible s1 m2 il2 Hwf1)
    as (s2 & Hc2 & _ & Hl2 & Hn2 & _ & _ & _ & Hel2);
    [by rewrite Hcap1|done|by rewrite Hcount1|].
  destruct (Collapse_divisible s m2 il Hwf Hm2 Hu2 Hd2)
    as (s' & Hc' & _ & Hl' & Hn' & _ & _ & Hcount' & Hel').
  rewrite Hcount1 in Hl2, Hel2.
  exists s1, s2, s'. split_and!; try done; [congruence..|].
  intros j Hj. rewrite !substream_element by lia.
  rewrite Hl2, Hl', Hn2, Hn'. apply list_fmap_ext. intros n i [-> Hi]%lookup_seqZ.
  assert (0 ≤ (0 + Z.of_nat n) * m2 + j < _length s * _subStreams s).
  { rewrite <- Hcount', Hl', Hn'. nia. }
  rewrite Hel2, Hel1, Hel' by done. done.
Qed.

(** X11: What a [Collapse] that divides evenly produces depends on the
    sub-streams only: for two well-formed buffers of the same length and
    number of sub-streams whose sub-streams hold the same elements,
    whatever their strides and their padding, and a [newstreams] that
    divides [length * subStreams] and fits the view tables of both, the
    two calls return with the same length and the same sub-streams. *)
Theorem Collapse_ignores_padding s t newstreams il1 il2 :
  wf s → wf t →
  _length s = _length t → _subStreams s = _subStreams t →
  (∀ j, 0 ≤ j < _subStreams s → substream s j = substream t j) →
  1 ≤ newstreams ≤ capacity s → newstreams ≤ capacity t →
  newstreams < UINT_MODULUS →
  (newstreams | _length s * _subStreams s) →
  ∃ s' t', Collapse newstreams il1 s = Returned s' ∧
    Collapse newstreams il2 t = Returned t' ∧
    _length s' = _length t' ∧
    ∀ j, 0 ≤ j < newstreams → substream s' j = substream t' j.
Proof.
  intros Hwfs Hwft Hl Hn Hsub Hms Hmt Hu Hdiv.
  destruct (Collapse_divisible s newstreams il1 Hwfs Hms Hu Hdiv)
    as (s' & Hcs & _ & Hls & Hns & _ & _ & Hcounts & Hels).
  destruct (Collapse_divisible t newstreams il2 Hwft)
    as (t' & Hct & _ & Hlt & Hnt & _ & _ & _ & Helt);
    [lia|done|by rewrite <- Hl, <- Hn|].
  rewrite <- Hl, <- Hn in Hlt, Helt.
  exists s', t'. split_and!; try done; [congruence|].
  intros j Hj. rewrite !substream_element by lia.
  rewrite Hls, Hlt, Hns, Hnt. apply list_fmap_ext. intros n i [-> Hi]%lookup_seqZ.
  assert (0 ≤ (0 + Z.of_nat n) * newstreams + j < _length s * _subStreams s).
  { rewrite <- Hcounts, Hls, Hns. nia. }
  rewrite Hels, Helt by done. apply element_substreams; try done. apply Hwfs.
Qed.

(** X12: The extent [stride * subStreams] never grows in a [Collapse]: it
    shrinks by the remainder of the old extent modulo [newstreams], and
    the length never exceeds the stride afterwards. *)
Theorem Collapse_extent s newstreams interleave :
  wf s → 1 ≤ newstreams ≤ capacity s → newstreams < UINT_MODULUS →
  ∃ s', Collapse newstreams interleave s = Returned s' ∧
    _stride s' * _subStreams s'
    = _stride s * _subStreams s - (_stride s * _subStreams s) `mod` newstreams ∧
    _stride s' * _subStreams s' ≤ _stride s * _subStreams s ∧
    0 ≤ _length s' ≤ _stride s'.
Proof.
  intros Hwf Hm Hu.
  destruct (Collapse_spec s newstreams interleave Hwf Hm Hu)
    as (s' & Hc & Hs & Hl & Hn & _ & _ & _ & Hwf' & _).
  destruct (div_mod_eq (_stride s * _subStreams s) newstreams) as [Hd Hr]; [lia|].
  exists s'. split_and!; [done|rewrite Hs, Hn; lia|rewrite Hs, Hn; lia|apply Hwf'..].
Qed.

End CollapseLayout.

(** ** Upload and Download *)

Section MoreTransfers.
Context {T : Type} `{!Sized T}.
Implicit Types (s : CUDAStream T) (d : Device).

Lemma Upload_returns d s :
  wf s →
  cudaMemcpy d (_stride s * _subStreams s * sizeof) cudaMemcpyHostToDevice = cudaSuccess →
  ∃ host dev dev',
    _pSysData s = Some host ∧ _pDevData s = Some dev ∧
    memcpy dev host (_stride s * _subStreams s) = Some dev' ∧
    Upload d s = Returned (with_pDevData s (Some dev')).
Proof.
  intros [Hl Hn Hu He (host & Hh & Hhl) (dev & Hd & Hdl) Hv] Hok.
  assert (Hw : wmul (_stride s) (_subStreams s) = _stride s * _subStreams s)
    by (apply wmul_small; nia).
  exists host, dev, (take (Z.to_nat (_stride s * _subStreams s)) host
                     ++ drop (Z.to_nat (_stride s * _subStreams s)) dev).
  assert (Hm : memcpy dev host (_stride s * _subStreams s)
               = Some (take (Z.to_nat (_stride s * _subStreams s)) host
                       ++ drop (Z.to_nat (_stride s * _subStreams s)) dev)).
  { unfold memcpy. by rewrite bool_decide_true by lia. }
  split_and!; try done.
  unfold Upload, RTERROR. rewrite Hw, Hok.
  rewrite bool_decide_false by (intros ?; done).
  rewrite Hd, Hh. cbn. by rewrite Hm.
Qed.

Lemma Download_returns d s :
  wf s →
  cudaMemcpy d (_stride s * _subStreams s * sizeof) cudaMemcpyDeviceToHost = cudaSuccess →
  ∃ host dev host',
    _pSysData s = Some host ∧ _pDevData s = Some dev ∧
    memcpy host dev (_stride s * _subStreams s) = Some host' ∧
    Download d s = Returned (with_pSysData s (Some host')).
Proof.
  intros [Hl Hn Hu He (host & Hh & Hhl) (dev & Hd & Hdl) Hv] Hok.
  assert (Hw : wmul (_stride s) (_subStreams s) = _stride s * _subStreams s)
    by (apply wmul_small; nia).
  exists host, dev, (take (Z.to_nat (_stride s * _subStreams s)) dev
                     ++ drop (Z.to_nat (_stride s * _subStreams s)) host).
  assert (Hm : memcpy host dev (_stride s * _subStreams s)
               = Some (take (Z.to_nat (_stride s * _subStreams s)) dev
                       ++ drop (Z.to_nat (_stride s * _subStreams s)) host)).
  { unfold memcpy. by rewrite bool_decide_true by lia. }
  split_and!; try done.
  unfold Download, RTERROR. rewrite Hw, Hok.
  rewrite bool_decide_false by (intros ?; done).
  rewrite Hh, Hd. cbn. by rewrite Hm.
Qed.

(** X13: After [Upload] on a well-formed buffer the device holds what the host
    holds: every position of every sub-stream, padding included, reads the
    same through the device view as through the host view.  The host
    storage, the shape and the views are untouched, and so are the device
    cells past [stride * subStreams]. *)
Theorem Upload_mirrors d s :
  wf s →
  cudaMemcpy d (_stride s * _subStreams s * sizeof) cudaMemcpyHostToDevice = cudaSuccess →
  ∃ s', Upload d s = Returned s' ∧
    _pSysData s' = _pSysData s ∧ same_layout s s' ∧
    (∀ j i, 0 ≤ j < _subStreams s → 0 ≤ i < _stride s →
       DevStream_get s' j i = SysStream_get s j i) ∧
    (∀ x, _stride s * _subStreams s ≤ x → device_get s' x = device_get s x).
Proof.
  intros Hwf Hok.
  destruct (Upload_returns d s Hwf Hok) as (host & dev & dev' & Hh & Hd & Hm & Hup).
  pose proof Hwf as [Hl Hn Hu He _ _ Hv].
  assert (0 ≤ _stride s * _subStreams s) by nia.
  eexists. split_and!; [done..| |].
  - intros j i Hj Hi. destruct (Hv j Hj) as [Hvs Hvd].
    unfold DevStream_get, SysStream_get, dev_view, sys_view in *. cbn.
    rewrite Hvd, Hvs, Hh. cbn.
    rewrite (memcpy_lookup _ _ _ _ _ Hm) by done.
    rewrite bool_decide_true by nia. done.
  - intros x Hx. unfold device_get. cbn. rewrite Hd. cbn.
    rewrite (memcpy_lookup _ _ _ _ _ Hm) by done.
    by rewrite bool_decide_false by lia.
Qed.

(** X14: After [Download] on a well-formed buffer the host holds what the
    device holds, position by position of every sub-stream, padding
    included; the device storage, the shape and the views are untouched,
    and so are the host cells past [stride * subStreams]. *)
Theorem Download_mirrors d s :
  wf s →
  cudaMemcpy d (_stride s * _subStreams s * sizeof) cudaMemcpyDeviceToHost = cudaSuccess →
  ∃ s', Download d s = Returned s' ∧
    _pDevData s' = _pDevData s ∧ same_layout s s' ∧
    (∀ j i, 0 ≤ j < _subStreams s → 0 ≤ i < _stride s →
       SysStream_get s' j i = DevStream_get s j i) ∧
    (∀ x, _stride s * _subStreams s ≤ x → host_get s' x = host_get s x).
Proof.
  intros Hwf Hok.
  destruct (Download_returns d s Hwf Hok) as (host & dev & host' & Hh & Hd & Hm & Hdown).
  pose proof Hwf as [Hl Hn Hu He _ _ Hv].
  assert (0 ≤ _stride s * _subStreams s) by nia.
  eexists. split_and!; [done..| |].
  - intros j i Hj Hi. destruct (Hv j Hj) as [Hvs Hvd].
    unfold DevStream_get, SysStream_get, dev_view, sys_view in *. cbn.
    rewrite Hvd, Hvs, Hd. cbn.
    rewrite (memcpy_lookup _ _ _ _ _ Hm) by done.
    rewrite bool_decide_true by nia. done.
  - intros x Hx. unfold host_get. cbn. rewrite Hh. cbn.
    rewrite (memcpy_lookup _ _ _ _ _ Hm) by done.
    by rewrite bool_decide_false by lia.
Qed.

(** X15: [Download] followed at once by [Upload] puts back on the device what
    was there: the device storage is, over its whole extent, what it was
    before the [Download]. *)
Theorem Download_Upload_roundtrip d s s1 s2 :
  Download d s = Returned s1 → Upload d s1 = Returned s2 →
  _pDevData s2 = _pDevData s ∧ s2 = s1.
Proof.
  unfold Upload, Download, RTERROR.
  case_bool_decide; [done|].
  destruct (_pSysData s) as [host|] eqn:Hh; [|done]. cbn.
  destruct (_pDevData s) as [dev|] eqn:Hd; [|done]. cbn.
  destruct (memcpy host dev _) as [host'|] eqn:Hdown; [|done]. cbn.
  intros [= <-]. cbn. case_bool_decide; [done|]. rewrite Hd. cbn.
  destruct (memcpy dev host' _) as [dev'|] eqn:Hup; [|done]. cbn.
  intros [= <-]. cbn.
  rewrite (memcpy_back _ _ _ _ _ Hdown Hup).
  split; [done|]. unfold with_pSysData, with_pDevData. cbn. by rewrite Hd.
Qed.

(** X16: Every call that returns keeps a well-formed buffer well-formed and
    leaves the size of its view tables alone. *)
Theorem calls_keep_wf d c s s' :
  wf s →
  (∀ m il, c = CallCollapse m il → 0 ≤ m < UINT_MODULUS) →
  perform d c s = Returned s' →
  wf s' ∧ capacity s' = capacity s.
Proof.
  intros Hwf Hty Hp. destruct c as [| |m il]; cbn in Hp.
  - pose proof Hwf as [Hl Hn Hu He Hhost (dev & Hd & Hdl) Hv].
    pose proof (Upload_layout d s s' Hp) as Hlay.
    pose proof (views_ok_layout s s' Hlay Hv) as Hv'.
    destruct Hlay as (Hl' & Hn' & Hs' & Hsys' & Hdev').
    revert Hp. unfold Upload, RTERROR. case_bool_decide; [done|].
    rewrite Hd. cbn. destruct (_pSysData s) as [host|] eqn:Hh; [|done]. cbn.
    destruct (memcpy dev host _) as [dev'|] eqn:Hm; [|done]. cbn.
    intros [= <-]. apply memcpy_length in Hm.
    split; [|by apply capacity_tables].
    destruct Hhost as (host0 & [= <-] & Hhl).
    split; cbn.
    + done.
    + by rewrite (capacity_tables s (with_pDevData s (Some dev'))).
    + done.
    + done.
    + by exists host.
    + exists dev'. split; [done|]. by rewrite Hm.
    + done.
  - pose proof Hwf as [Hl Hn Hu He (host & Hh & Hhl) Hdev Hv].
    pose proof (Download_layout d s s' Hp) as Hlay.
    pose proof (views_ok_layout s s' Hlay Hv) as Hv'.
    destruct Hlay as (Hl' & Hn' & Hs' & Hsys' & Hdev').
    revert Hp. unfold Download, RTERROR. case_bool_decide; [done|].
    rewrite Hh. cbn. destruct (_pDevData s) as [dev|] eqn:Hd; [|done]. cbn.
    destruct (memcpy host dev _) as [host'|] eqn:Hm; [|done]. cbn.
    intros [= <-]. apply memcpy_length in Hm.
    split; [|by apply capacity_tables].
    destruct Hdev as (dev0 & [= <-] & Hdl).
    split; cbn.
    + done.
    + by rewrite (capacity_tables s (with_pSysData s (Some host'))).
    + done.
    + done.
    + exists host'. split; [done|]. by rewrite Hm.
    + by exists dev.
    + done.
  - specialize (Hty m il eq_refl).
    assert (Hcap : 1 ≤ m ≤ capacity s).
    { revert Hp. unfold Collapse. case_bool_decide as Hm0; [done|].
      destruct (for_upto (_length s) _ _) as [[[pTemp stream] pos]| |]; [|done..]. cbn.
      destruct (for_upto m _ s) as [s1| |] eqn:Hremap; [|done..]. intros _.
      apply point_views_loop_frame in Hremap as (Hcap & _); lia. }
    destruct (Collapse_spec s m il Hwf Hcap) as (s'' & Hc & _ & _ & _ & Hc' & _ & _ & Hwf' & _);
      [lia|].
    rewrite Hp in Hc. by injection Hc as <-.
Qed.

(** X17: Re-uploading after a reshape brings the device in line with the new
    layout: after [Collapse] and [Upload], position [i] of sub-stream [j]
    read through the device view is the element [Collapse] put there on
    the host. *)
Theorem Collapse_then_Upload d s newstreams interleave :
  wf s → 1 ≤ newstreams ≤ capacity s → newstreams < UINT_MODULUS →
  (newstreams | _length s * _subStreams s) →
  cudaMemcpy d ((_stride s * _subStreams s) `div` newstreams * newstreams * sizeof)
    cudaMemcpyHostToDevice = cudaSuccess →
  ∃ s1 s2, Collapse newstreams interleave s = Returned s1 ∧
    Upload d s1 = Returned s2 ∧
    ∀ j i, 0 ≤ j < newstreams → 0 ≤ i < _length s1 →
      DevStream_get s2 j i
      = SysStream_get s ((i * newstreams + j) `mod` _subStreams s)
                        ((i * newstreams + j) `div` _subStreams s).
Proof.
  intros Hwf Hm Hu Hdiv Hok.
  destruct (Collapse_divisible s newstreams interleave Hwf Hm Hu Hdiv)
    as (s1 & Hc & Hs & Hl & Hn & _ & Hwf1 & Hcount & Hel).
  rewrite <- Hs, <- Hn in Hok.
  destruct (Upload_returns d s1 Hwf1 Hok) as (host & dev & dev' & Hh & Hd & Hmc & Hup).
  pose proof Hwf1 as [Hl1 Hn1 Hu1 He1 _ _ Hv1].
  eexists s1, _. split_and!; [done..|].
  intros j i Hj Hi.
  change (SysStream_get s _ _) with (element s (i * newstreams + j)).
  rewrite <- Hel by (rewrite <- Hcount, Hn; nia).
  rewrite <- Hn in Hj |- *. rewrite element_row_major by done.
  destruct (Hv1 j Hj) as [Hvs Hvd].
  unfold DevStream_get, SysStream_get, dev_view, sys_view in *. cbn.
  rewrite Hvd, Hvs, Hh. cbn.
  rewrite (memcpy_lookup _ _ _ _ _ Hmc) by nia.
  rewrite bool_decide_true by nia. done.
Qed.

End MoreTransfers.

(** ** Element access *)

Section ElementAccess.
Context {T : Type}.
Implicit Types (s : CUDAStream T).

(** X18: [operator[]] and the views address the same cells.  On a
    well-formed buffer, for a position [i] below the stride of a sub-stream
    [j] whose flat index [j * stride + i] an [int] can hold, the assignment
    [s[j * stride + i] = v] returns; afterwards [_pSysStream[j][i]] and
    [s[j * stride + i]] both read [v], every other position of every
    sub-stream, padding included, reads as before, the device storage is
    untouched and the buffer is still well-formed. *)
Theorem index_set_view s j i v :
  wf s → 0 ≤ j < _subStreams s → 0 ≤ i < _stride s →
  j * _stride s + i ≤ INT_MAX →
  ∃ s', index_set (j * _stride s + i) v s = Returned s' ∧
    SysStream_get s' j i = Some v ∧
    index_get s' (j * _stride s + i) = Some v ∧
    (∀ j' i', 0 ≤ j' < _subStreams s → 0 ≤ i' < _stride s →
       (j', i') ≠ (j, i) → SysStream_get s' j' i' = SysStream_get s j' i') ∧
    _pDevData s' = _pDevData s ∧ wf s'.
Proof.
  intros Hwf Hj Hi Hint.
  pose proof Hwf as [Hl Hn Hu He (host & Hh & Hlen) Hd Hv].
  assert (Hx : 0 ≤ j * _stride s + i < Z.of_nat (length host)) by nia.
  assert (Hrange : INT_MIN ≤ j * _stride s + i ≤ INT_MAX) by (unfold INT_MIN; lia).
  unfold index_set. rewrite bool_decide_true by done. rewrite Hh. cbn.
  rewrite insertZ_Some by done. cbn. eexists. split; [done|].
  destruct (Hv j Hj) as [Hvs _].
  split_and!.
  - unfold SysStream_get, sys_view in *. cbn. rewrite Hvs. cbn.
    by apply lookupZ_insert_eq.
  - unfold index_get, host_get. rewrite bool_decide_true by done. cbn.
    by apply lookupZ_insert_eq.
  - intros j' i' Hj' Hi' Hne. destruct (Hv j' Hj') as [Hvs' _].
    unfold SysStream_get, sys_view in *. cbn. rewrite Hvs', Hh. cbn.
    apply lookupZ_insert_ne; [lia|].
    intros Heq. apply Hne.
    assert (j' = j) by nia. subst j'. f_equal. lia.
  - done.
  - split; cbn; try done.
    eexists. split; [done|]. by rewrite length_insert.
Qed.

End ElementAccess.

(** ** Reshapes that do not divide evenly *)

Section Overwrite.
Context {T : Type}.
Implicit Types (s : CUDAStream T).

Lemma gather_last_step s m i j (st : list (option T) * Z * Z) :
  wf s → 0 < m < UINT_MODULUS →
  0 ≤ i < _length s → 0 ≤ j < _subStreams s →
  let ns := (_stride s * _subStreams s) `div` m in
  gathered_last s m ns (i * _subStreams s + j) st →
  ∃ st', gather s m ns i j st = Returned st' ∧
         gathered_last s m ns (i * _subStreams s + j + 1) st'.
Proof.
  intros Hwf Hm Hi Hj ns Hg.
  destruct (SysStream_get_wf s j i Hwf Hj Hi) as (host & Hh & Hget & Hin).
  destruct (lookupZ_is_Some host _ Hin) as [v Hv].
  destruct Hwf as [Hl Hn Hu He _ _ _].
  destruct st as [[pTemp stream] pos]. destruct Hg as (-> & -> & Hlen & Hcont).
  set (N := _subStreams s) in *. set (L := _length s) in *.
  set (W := _stride s * N) in *. set (k := i * N + j) in *.
  assert (Hk : 0 ≤ k < L * N) by (unfold k; nia).
  assert (HkW : 0 ≤ k < W) by (unfold W; nia).
  destruct (slot_bound m W k) as [Hs0 Hs1]; [lia..|]. fold ns in Hs0, Hs1.
  destruct (div_mod_eq k m) as [Hkd Hkr]; [lia|].
  destruct (div_nonneg k m) as [Hq0 Hq1]; [lia..|].
  destruct (div_nonneg W m) as [Hns0 _]; [lia..|]. fold ns in Hns0.
  assert (Hti : temp_index ns (k `mod` m) (k `div` m) = slot m ns k).
  { unfold temp_index, slot in *. unfold UINT_MODULUS in *.
    rewrite (wmul_small (k `mod` m) ns) by (unfold UINT_MODULUS; nia).
    rewrite wadd_small by (unfold UINT_MODULUS; lia). done. }
  unfold gather. rewrite Hget, Hv. cbn. rewrite Hti.
  rewrite insertZ_Some by lia. cbn.
  rewrite (wadd_small (k `mod` m) 1) by lia.
  assert (Hcont' : ∀ k', 0 ≤ k' < k + 1 →
            (∀ k'', k' < k'' < k + 1 → slot m ns k'' ≠ slot m ns k') →
            lookupZ (<[Z.to_nat (slot m ns k) := v]> pTemp) (slot m ns k') = element s k').
  { intros k' Hk' Hlast. destruct (decide (k' = k)) as [->|Hne].
    - rewrite lookupZ_insert_eq by lia.
      change (element s k) with (element s (i * _subStreams s + j)).
      rewrite element_row_major by done. by rewrite Hget.
    - rewrite lookupZ_insert_ne; [|lia|apply Hlast; lia].
      apply Hcont; [lia|]. intros k'' Hk''. apply Hlast. lia. }
  destruct (succ_wrap k m) as [Hwrap Hstay]; [lia|].
  case_bool_decide as Hc.
  - destruct (Hwrap Hc) as [Hmo Hdi]. eexists. split; [done|].
    cbn. rewrite Hmo, Hdi, length_insert.
    rewrite wadd_small by (unfold UINT_MODULUS in *; lia). done.
  - destruct (Hstay Hc) as [Hmo Hdi]. eexists. split; [done|].
    cbn. rewrite Hmo, Hdi, length_insert. done.
Qed.

Lemma gather_last_loop s m :
  wf s → 0 < m < UINT_MODULUS →
  let ns := (_stride s * _subStreams s) `div` m in
  ∃ st,
    for_upto (_length s) (λ i, for_upto (_subStreams s) (λ j, gather s m ns i j))
      (new_array (wmul (_subStreams s) (_stride s)), 0, 0) = Returned st ∧
    gathered_last s m ns (_length s * _subStreams s) st.
Proof.
  intros Hwf Hm ns.
  pose proof Hwf as [Hl Hn Hu He _ _ _].
  apply (for_upto_inv (λ i st, gathered_last s m ns (i * _subStreams s) st)); [lia| |].
  - cbn. rewrite Z.mod_0_l, Z.div_0_l by lia. repeat split.
    + rewrite length_new_array, wmul_comm, wmul_small by nia. nia.
    + intros k' Hk'. lia.
  - intros i st Hi Hg.
    replace ((i + 1) * _subStreams s) with (i * _subStreams s + _subStreams s) by lia.
    apply (for_upto_inv (λ j st, gathered_last s m ns (i * _subStreams s + j) st)); [lia| |].
    + by rewrite Z.add_0_r.
    + intros j st' Hj Hg'. rewrite Z.add_assoc. by apply gather_last_step.
Qed.

(** What [Collapse] leaves in the new sub-streams in every case: the
    element [c] of the new row-major order is the last element of the old
    one that was written to the slot of [c]. *)
Lemma Collapse_last_writer s m il :
  wf s → 1 ≤ m ≤ capacity s → m < UINT_MODULUS →
  let ns := (_stride s * _subStreams s) `div` m in
  let nl := (_length s * _subStreams s) `div` m in
  ∃ s', Collapse m il s = Returned s' ∧
    _stride s' = ns ∧ _length s' = nl ∧ _subStreams s' = m ∧
    ∀ c k, 0 ≤ c < nl * m → 0 ≤ k < _length s * _subStreams s →
      slot m ns k = slot m ns c →
      (∀ k', k < k' < _length s * _subStreams s → slot m ns k' ≠ slot m ns c) →
      element s' c = element s k.
Proof.
  intros Hwf Hm Hu ns nl.
  pose proof Hwf as [Hl Hn _ He (host & Hhost & Hhlen) (dev & Hdev & Hdlen) Hv].
  set (W := _stride s * _subStreams s) in *.
  set (LN := _length s * _subStreams s) in *.
  assert (HLN : 0 ≤ LN ≤ W) by (unfold LN, W; nia).
  destruct (div_mod_eq W m) as [HWd HWr]; [lia|]. fold ns in HWd.
  destruct (div_mod_eq LN m) as [HLd HLr]; [lia|]. fold nl in HLd.
  destruct (div_nonneg W m) as [Hns0 _]; [lia..|]. fold ns in Hns0.
  destruct (div_nonneg LN m) as [Hnl0 _]; [lia..|]. fold nl in Hnl0.
  assert (Hnlns : nl ≤ ns) by (apply Z.div_le_mono; lia).
  destruct (gather_last_loop s m Hwf) as ([[pTemp stream] pos] & Hg & _ & _ & HpT & Hgc); [lia|].
  fold W ns in Hg, HpT, Hgc. fold LN in Hgc.
  destruct (point_views_loop ns m s) as (s1 & Hr & [Hl1 Hn1 Hs1 Hh1 Hd1 Hnm1 Hc1 Hv1]); [lia|].
  assert (Hviews : ∀ j, 0 ≤ j < m → sys_view s1 j = Some (j * ns)).
  { intros j Hj. destruct (Hv1 j Hj) as [-> _].
    rewrite wmul_small; [done|]. unfold UINT_MODULUS in *. nia. }
  destruct (scatter_loop pTemp m ns nl s1)
    as (s2 & Hsc & [Hl2 Hn2 Hs2 Hsys2 Hdev2 Hdd2 Hnm2 (h1 & host' & Hh1' & Hhost' & Hlen' & Hcont)]);
    [lia|lia|nia|nia| |done|].
  { exists host. rewrite Hh1. split; [done|nia]. }
  unfold Collapse. rewrite bool_decide_false by lia.
  rewrite (wmul_small (_stride s)), (wmul_small (_length s)) by (fold W LN; lia).
  fold W LN ns nl. rewrite Hg. cbn. rewrite Hr. cbn. rewrite Hsc. cbn.
  eexists. split; [done|]. cbn. split_and!; try done.
  intros c k Hc Hk Hslot Hlast.
  destruct (div_mod_eq c m) as [Hcd Hcr]; [lia|].
  rewrite <- Hgc; [|done|by intros k' Hk'; rewrite Hslot; apply Hlast].
  rewrite Hslot, <- Hcont by done.
  unfold element, SysStream_get, sys_view. cbn. rewrite Hsys2, Hhost'.
  specialize (Hviews (c `mod` m) ltac:(lia)).
  unfold sys_view in Hviews. rewrite Hviews. done.
Qed.

(** X20: When [newstreams] does not divide the extent and the sub-streams are
    filled to the last cell of it, [Collapse] does more than drop the
    tail: element [newstride * newstreams + r] of the old row-major order
    is written over the one that belongs at position 0 of the new
    sub-stream [r + 1], and is what that position holds afterwards. *)
Theorem Collapse_overwrites s newstreams interleave r :
  wf s → 1 ≤ newstreams ≤ capacity s → newstreams < UINT_MODULUS →
  let newstride := (_stride s * _subStreams s) `div` newstreams in
  1 ≤ newstride → 0 ≤ r → r + 1 < newstreams →
  newstride * newstreams + r < _length s * _subStreams s →
  ∃ s', Collapse newstreams interleave s = Returned s' ∧
    1 ≤ _length s' ∧
    SysStream_get s' (r + 1) 0
    = SysStream_get s ((newstride * newstreams + r) `mod` _subStreams s)
                      ((newstride * newstreams + r) `div` _subStreams s).
Proof.
  intros Hwf Hm Hu ns Hns Hr0 Hr Hk.
  destruct (Collapse_last_writer s newstreams interleave Hwf Hm Hu)
    as (s' & Hc & Hs & Hl & Hn & Hel).
  fold ns in Hs, Hel.
  pose proof Hwf as [HLS HN _ He _ _ _].
  set (m := newstreams) in *.
  set (W := _stride s * _subStreams s) in *.
  set (LN := _length s * _subStreams s) in *.
  assert (HLN : 0 ≤ LN ≤ W) by (unfold LN, W; nia).
  destruct (div_mod_eq W m) as [HWd HWr]; [lia|]. fold ns in HWd.
  destruct (div_mod_eq LN m) as [HLd HLr]; [lia|].
  assert (Hnl : 1 ≤ LN `div` m).
  { apply Z.div_le_lower_bound; [lia|]. nia. }
  assert (Hslot_c : slot m ns (r + 1) = (r + 1) * ns).
  { unfold slot. rewrite Z.mod_small, Z.div_small by lia. lia. }
  assert (Hslot_tail : ∀ r', 0 ≤ r' < m → slot m ns (ns * m + r') = (r' + 1) * ns).
  { intros r' Hr'. unfold slot.
    destruct (div_mod_of ns r' m Hr') as [Hd Hmo].
    rewrite Hd, Hmo. lia. }
  exists s'. split_and!; [done|lia|].
  change (SysStream_get s _ _) with (element s (ns * m + r)).
  rewrite <- (Hel (r + 1) (ns * m + r)).
  - unfold element. rewrite Hn. by rewrite Z.mod_small, Z.div_small by lia.
  - nia.
  - nia.
  - rewrite Hslot_c. apply Hslot_tail. lia.
  - intros k' Hk'. rewrite Hslot_c.
    destruct (div_mod_eq k' m) as [Hkd Hkr]; [lia|].
    assert (Hq : k' `div` m = ns) by nia.
    unfold slot. rewrite Hq. nia.
Qed.

End Overwrite.

(** * The further properties at concrete buffers *)

Lemma construct_well_formed_witness :
  ∃ s, construct (T:=float) runtime_ok 20 2 "posq" = Returned s ∧
    wf s ∧ capacity s = 2 ∧ _name s = "posq" ∧
    ∀ j i, 0 ≤ j < 2 → 0 ≤ i < _stride s →
      SysStream_get s j i = Some None ∧ DevStream_get s j i = Some None.
Proof.
  apply (construct_well_formed runtime_ok 20 2 "posq").
  - vm_compute. discriminate.
  - vm_compute. reflexivity.
  - vm_compute. split; [discriminate|reflexivity].
  - vm_compute. reflexivity.
  - vm_compute. reflexivity.
Defined.

Lemma construct_overloads_agree_witness :
  construct_int_uint (T:=float) runtime_ok 20 2 "s"
    = construct runtime_ok (to_unsigned 20) 2 "s" ∧
  construct_int_int (T:=float) runtime_ok 20 2 "s"
    = construct runtime_ok (to_unsigned 20) (to_unsigned 2) "s" ∧
  construct_uint_int (T:=float) runtime_ok 20 2 "s"
    = construct runtime_ok 20 (to_unsigned 2) "s".
Proof.
  apply (construct_overloads_agree runtime_ok 20 2 "s").
  vm_compute. split; discriminate.
Defined.

Lemma construct_int_length_overflow_witness :
  construct_int_uint (T:=float) runtime_ok 2147483647 1 "s" = Undefined ∧
  construct_int_int (T:=float) runtime_ok 2147483647 1 "s" = Undefined ∧
  Z.land (wadd 2147483647 0xf) 0xfffffff0 = 16 * ((2147483647 + 15) `div` 16).
Proof.
  apply (construct_int_length_overflow runtime_ok 2147483647 1 "s").
  vm_compute. split; [reflexivity|discriminate].
Defined.

Lemma construct_int_negative_length_witness :
  ∃ s, construct_int_uint (T:=float) runtime_ok (-1) 1 "s" = Returned s ∧
    _length s = UINT_MODULUS + -1 ∧ _stride s = 0 ∧ _subStreams s = 1 ∧
    _pSysData s = Some [] ∧ _pDevData s = Some [] ∧
    ∀ j, SysStream_get s j 0 = None.
Proof.
  apply (construct_int_negative_length runtime_ok (-1) 1 "s").
  - vm_compute. split; [discriminate|reflexivity].
  - vm_compute. discriminate.
  - vm_compute. reflexivity.
Defined.

Lemma Collapse_frame_witness :
  let s' := returned unallocated (Collapse 1 1 example_20x2) in
  1 ≤ 1 ≤ capacity example_20x2 ∧
  _pDevData s' = _pDevData example_20x2 ∧ _name s' = _name example_20x2 ∧
  capacity s' = capacity example_20x2 ∧
  length <$> _pSysData s' = length <$> _pSysData example_20x2 ∧
  ∀ j, 1 ≤ j →
    sys_view s' j = sys_view example_20x2 j ∧ dev_view s' j = dev_view example_20x2 j.
Proof.
  apply (Collapse_frame example_20x2 1 1).
  - vm_compute. discriminate.
  - vm_compute. reflexivity.
Defined.


Lemma Collapse_position_witness :
  ∃ s', Collapse 1 1 example_20x2 = Returned s' ∧
    ∀ j i, 0 ≤ j < 1 → 0 ≤ i < _length s' →
      SysStream_get s' j i
      = SysStream_get example_20x2 ((i * 1 + j) `mod` _subStreams example_20x2)
                                   ((i * 1 + j) `div` _subStreams example_20x2).
Proof.
  apply (Collapse_position example_20x2 1 1).
  - apply wfb_sound. vm_compute. reflexivity.
  - vm_compute. split; discriminate.
  - vm_compute. reflexivity.
  - exists 40. vm_compute. reflexivity.
Defined.

Lemma Collapse_to_one_witness :
  ∃ s', Collapse 1 1 example_20x2 = Returned s' ∧
    _subStreams s' = 1 ∧
    _length s' = _length example_20x2 * _subStreams example_20x2 ∧
    _stride s' = _stride example_20x2 * _subStreams example_20x2 ∧
    substream s' 0
    = mjoin ((λ i, (λ j, SysStream_get example_20x2 j i)
                     <$> seqZ 0 (_subStreams example_20x2))
               <$> seqZ 0 (_length example_20x2)).
Proof.
  apply (Collapse_to_one example_20x2 1).
  - apply wfb_sound. vm_compute. reflexivity.
  - vm_compute. discriminate.
Defined.

Lemma Collapse_same_count_witness :
  ∃ s', Collapse (_subStreams example_20x2) 1 example_20x2 = Returned s' ∧
    _length s' = _length example_20x2 ∧ _stride s' = _stride example_20x2 ∧
    _subStreams s' = _subStreams example_20x2 ∧
    ∀ j, 0 ≤ j < _subStreams example_20x2 →
      substream s' j = substream example_20x2 j.
Proof.
  apply (Collapse_same_count example_20x2 1).
  - apply wfb_sound. vm_compute. reflexivity.
  - vm_compute. discriminate.
Defined.

Lemma Collapse_compose_witness :
  ∃ s1 s2 s', Collapse 1 1 example_20x2 = Returned s1 ∧
    Collapse 2 1 s1 = Returned s2 ∧
    Collapse 2 1 example_20x2 = Returned s' ∧
    _length s2 = _length s' ∧ _subStreams s2 = _subStreams s' ∧
    ∀ j, 0 ≤ j < 2 → substream s2 j = substream s' j.
Proof.
  apply (Collapse_compose example_20x2 1 2 1 1 1).
  - apply wfb_sound. vm_compute. reflexivity.
  - vm_compute. split; discriminate.
  - vm_compute. reflexivity.
  - vm_compute. split; discriminate.
  - vm_compute. reflexivity.
  - exists 40. vm_compute. reflexivity.
  - exists 20. vm_compute. reflexivity.
Defined.

Lemma Collapse_ignores_padding_witness :
  let t := returned unallocated (index_set 30 (Some (float_of_Z 7)) example_20x2) in
  ∃ s' t', Collapse 1 1 example_20x2 = Returned s' ∧
    Collapse 1 1 t = Returned t' ∧
    _length s' = _length t' ∧
    ∀ j, 0 ≤ j < 1 → substream s' j = substream t' j.
Proof.
  intros t.
  apply (Collapse_ignores_padding example_20x2 t 1 1 1).
  - apply wfb_sound. vm_compute. reflexivity.
  - apply wfb_sound. vm_compute. reflexivity.
  - vm_compute. reflexivity.
  - vm_compute. reflexivity.
  - intros j Hj. change (_subStreams example_20x2) with 2 in Hj.
    assert (Hj' : j = 0 ∨ j = 1) by lia.
    destruct Hj' as [->| ->]; vm_compute; reflexivity.
  - vm_compute. split; discriminate.
  - vm_compute. discriminate.
  - vm_compute. reflexivity.
  - exists 40. vm_compute. reflexivity.
Defined.

Lemma Collapse_extent_witness :
  ∃ s', Collapse 3 1 (fresh 16 5) = Returned s' ∧
    _stride s' * _subStreams s'
    = _stride (fresh 16 5) * _subStreams (fresh 16 5)
      - (_stride (fresh 16 5) * _subStreams (fresh 16 5)) `mod` 3 ∧
    _stride s' * _subStreams s' ≤ _stride (fresh 16 5) * _subStreams (fresh 16 5) ∧
    0 ≤ _length s' ≤ _stride s'.
Proof.
  apply (Collapse_extent (fresh 16 5) 3 1).
  - apply wfb_sound. vm_compute. reflexivity.
  - vm_compute. split; discriminate.
  - vm_compute. reflexivity.
Defined.

Lemma Upload_mirrors_witness :
  ∃ s', Upload runtime_ok example_20x2 = Returned s' ∧
    _pSysData s' = _pSysData example_20x2 ∧ same_layout example_20x2 s' ∧
    (∀ j i, 0 ≤ j < _subStreams example_20x2 → 0 ≤ i < _stride example_20x2 →
       DevStream_get s' j i = SysStream_get example_20x2 j i) ∧
    (∀ x, _stride example_20x2 * _subStreams example_20x2 ≤ x →
       device_get s' x = device_get example_20x2 x).
Proof.
  apply (Upload_mirrors runtime_ok example_20x2).
  - apply wfb_sound. vm_compute. reflexivity.
  - vm_compute. reflexivity.
Defined.

Lemma Download_mirrors_witness :
  ∃ s', Download runtime_ok example_20x2 = Returned s' ∧
    _pDevData s' = _pDevData example_20x2 ∧ same_layout example_20x2 s' ∧
    (∀ j i, 0 ≤ j < _subStreams example_20x2 → 0 ≤ i < _stride example_20x2 →
       SysStream_get s' j i = DevStream_get example_20x2 j i) ∧
    (∀ x, _stride example_20x2 * _subStreams example_20x2 ≤ x →
       host_get s' x = host_get example_20x2 x).
Proof.
  apply (Download_mirrors runtime_ok example_20x2).
  - apply wfb_sound. vm_compute. reflexivity.
  - vm_compute. reflexivity.
Defined.

Lemma Download_Upload_roundtrip_witness :
  let s0 := returned unallocated (Upload runtime_ok example_20x2) in
  let s1 := returned unallocated (Download runtime_ok s0) in
  let s2 := returned unallocated (Upload runtime_ok s1) in
  _pDevData s2 = _pDevData s0 ∧ s2 = s1.
Proof.
  apply (Download_Upload_roundtrip runtime_ok).
  - vm_compute. reflexivity.
  - vm_compute. reflexivity.
Defined.

Lemma calls_keep_wf_witness :
  let s' := returned unallocated (Collapse 1 1 example_20x2) in
  wf s' ∧ capacity s' = capacity example_20x2.
Proof.
  apply (calls_keep_wf runtime_ok (CallCollapse 1 1) example_20x2).
  - apply wfb_sound. vm_compute. reflexivity.
  - intros m il [= <- <-]. vm_compute. split; [discriminate|reflexivity].
  - vm_compute. reflexivity.
Defined.

Lemma Collapse_then_Upload_witness :
  ∃ s1 s2, Collapse 1 1 example_20x2 = Returned s1 ∧
    Upload runtime_ok s1 = Returned s2 ∧
    ∀ j i, 0 ≤ j < 1 → 0 ≤ i < _length s1 →
      DevStream_get s2 j i
      = SysStream_get example_20x2 ((i * 1 + j) `mod` _subStreams example_20x2)
                                   ((i * 1 + j) `div` _subStreams example_20x2).
Proof.
  apply (Collapse_then_Upload runtime_ok example_20x2 1 1).
  - apply wfb_sound. vm_compute. reflexivity.
  - vm_compute. split; discriminate.
  - vm_compute. reflexivity.
  - exists 40. vm_compute. reflexivity.
  - vm_compute. reflexivity.
Defined.

Lemma index_set_view_witness :
  let s := example_20x2 in
  ∃ s', index_set (1 * _stride s + 3) (Some (float_of_Z 7)) s = Returned s' ∧
    SysStream_get s' 1 3 = Some (Some (float_of_Z 7)) ∧
    index_get s' (1 * _stride s + 3) = Some (Some (float_of_Z 7)) ∧
    (∀ j' i', 0 ≤ j' < _subStreams s → 0 ≤ i' < _stride s →
       (j', i') ≠ (1, 3) → SysStream_get s' j' i' = SysStream_get s j' i') ∧
    _pDevData s' = _pDevData s ∧ wf s'.
Proof.
  intros s. apply (index_set_view s 1 3 (Some (float_of_Z 7))).
  - apply wfb_sound. vm_compute. reflexivity.
  - vm_compute. split; [discriminate|reflexivity].
  - vm_compute. split; [discriminate|reflexivity].
  - vm_compute. discriminate.
Defined.

Lemma Collapse_overwrites_witness :
  ∃ s', Collapse 3 1 (fresh 16 5) = Returned s' ∧
    1 ≤ _length s' ∧
    SysStream_get s' (1 + 1) 0
    = SysStream_get (fresh 16 5)
        (((_stride (fresh 16 5) * _subStreams (fresh 16 5)) `div` 3 * 3 + 1)
           `mod` _subStreams (fresh 16 5))
        (((_stride (fresh 16 5) * _subStreams (fresh 16 5)) `div` 3 * 3 + 1)
           `div` _subStreams (fresh 16 5)).
Proof.
  apply (Collapse_overwrites (fresh 16 5) 3 1 1).
  - apply wfb_sound. vm_compute. reflexivity.
  - vm_compute. split; discriminate.
  - vm_compute. reflexivity.
  - vm_compute. discriminate.
  - vm_compute. discriminate.
  - vm_compute. reflexivity.
  - vm_compute. reflexivity.
Defined.
